(** * The conversation subsystem of the Lost & Found platform

    A shallow embedding of the chat model (the Mongoose schema of
    [models/Chat.js], its instance methods, its static queries and its
    pre-save hook) and of the Socket.io handlers of [backend/server.js] that
    drive it, followed by the properties of the conversation store and of the
    message ledger.

    Conventions of the embedding.
    - An [ObjectId] is an opaque identifier; the source compares identifiers
      through [toString()], which is equality of identifiers.
    - A [Date] is a number of milliseconds since the epoch; [new Date()] and
      [Date.now()] are the argument [now] of the operation that reads the
      clock.
    - A string is a sequence of code units below 256, and its length is the
      number of its code units.
    - The payload of an event is well typed: a content is a string, a message
      type one of the four of the schema.
    - The setter of the schema trims a message content when it is assigned or
      pushed; [save] runs the validators of the schema before the pre-save
      hook and the write, and when one fails the promise it returns is
      rejected and nothing is written.  A document of the collection has
      passed validation when it was written, so that a write can only fail on
      a content the method has assigned or pushed since the document was
      loaded.  The createdAt/updatedAt stamps belong to the store and are not
      part of the embedding.
    - A method runs on the document in memory ([this]); an exception or a
      rejection leaves the document as the statements before it made it.
    - The clock has moved since a document was last written: a stamp assigned
      from it is a new value for its field, so a method that assigns to a
      message has modified [messages].
    - Events are handled one after the other: a handler runs to its end on
      the collection the previous one left. *)

From Stdlib Require Import List ZArith String Ascii Bool Arith Lia.
From Stdlib Require Import DecimalString Permutation Sorted.
Import ListNotations.
Local Open Scope string_scope.
Local Open Scope list_scope.

(** ** The schema *)

Definition ObjectId := nat.
Definition Date := Z.

Inductive MessageType := text | image | file | system.
Inductive Status := active | closed | archived.
Inductive ChatType := inquiry | negotiation | support.
Inductive Priority := low | medium | high | urgent.

Record Attachment := {
  url : option string;
  publicId : option string;
  filename : option string;
  size : option Z
}.

(** [messageSchema]; [msg_id] is the sub-document's [_id]. *)
Record Message := {
  msg_id : ObjectId;
  sender : ObjectId;
  content : string;
  messageType : MessageType;
  attachment : option Attachment;
  isRead : bool;
  readAt : option Date;
  isEdited : bool;
  editedAt : option Date;
  originalContent : option string;
  isDeleted : bool;
  deletedAt : option Date
}.

Record Participant := {
  user : ObjectId;
  joinedAt : Date;
  lastSeen : Date;
  isActive : bool
}.

(** The [lastMessage] snapshot of [chatSchema]. *)
Record LastMessage := {
  lm_content : option string;
  lm_sender : option ObjectId;
  lm_timestamp : option Date;
  lm_messageType : MessageType
}.

Record Notifications := {
  enabled : bool;
  muteUntil : option Date
}.

Record Metadata := {
  itemReturned : bool;
  meetingArranged : bool;
  meetingLocation : option string;
  meetingTime : option Date;
  contactShared : bool
}.

(** [chatSchema]. *)
Record Chat := {
  _id : ObjectId;
  participants : list Participant;
  post : ObjectId;
  chatType : ChatType;
  title : option string;
  messages : list Message;
  lastMessage : LastMessage;
  status : Status;
  isResolved : bool;
  resolvedAt : option Date;
  resolvedBy : option ObjectId;
  priority : Priority;
  lastActivity : Date;
  autoCloseAt : Date;
  notifications : Notifications;
  metadata : Metadata
}.

Definition Status_eqb (a b : Status) : bool :=
  match a, b with
  | active, active | closed, closed | archived, archived => true
  | _, _ => false
  end.

(** *** Assignment to one field *)

Definition set_isRead (v : bool) (m : Message) : Message :=
  {| msg_id := msg_id m; sender := sender m; content := content m;
     messageType := messageType m; attachment := attachment m;
     isRead := v; readAt := readAt m;
     isEdited := isEdited m; editedAt := editedAt m;
     originalContent := originalContent m;
     isDeleted := isDeleted m; deletedAt := deletedAt m |}.

Definition set_readAt (v : option Date) (m : Message) : Message :=
  {| msg_id := msg_id m; sender := sender m; content := content m;
     messageType := messageType m; attachment := attachment m;
     isRead := isRead m; readAt := v;
     isEdited := isEdited m; editedAt := editedAt m;
     originalContent := originalContent m;
     isDeleted := isDeleted m; deletedAt := deletedAt m |}.

Definition set_content (v : string) (m : Message) : Message :=
  {| msg_id := msg_id m; sender := sender m; content := v;
     messageType := messageType m; attachment := attachment m;
     isRead := isRead m; readAt := readAt m;
     isEdited := isEdited m; editedAt := editedAt m;
     originalContent := originalContent m;
     isDeleted := isDeleted m; deletedAt := deletedAt m |}.

Definition set_isEdited (v : bool) (m : Message) : Message :=
  {| msg_id := msg_id m; sender := sender m; content := content m;
     messageType := messageType m; attachment := attachment m;
     isRead := isRead m; readAt := readAt m;
     isEdited := v; editedAt := editedAt m;
     originalContent := originalContent m;
     isDeleted := isDeleted m; deletedAt := deletedAt m |}.

Definition set_editedAt (v : option Date) (m : Message) : Message :=
  {| msg_id := msg_id m; sender := sender m; content := content m;
     messageType := messageType m; attachment := attachment m;
     isRead := isRead m; readAt := readAt m;
     isEdited := isEdited m; editedAt := v;
     originalContent := originalContent m;
     isDeleted := isDeleted m; deletedAt := deletedAt m |}.

Definition set_originalContent (v : option string) (m : Message) : Message :=
  {| msg_id := msg_id m; sender := sender m; content := content m;
     messageType := messageType m; attachment := attachment m;
     isRead := isRead m; readAt := readAt m;
     isEdited := isEdited m; editedAt := editedAt m;
     originalContent := v;
     isDeleted := isDeleted m; deletedAt := deletedAt m |}.

Definition set_isDeleted (v : bool) (m : Message) : Message :=
  {| msg_id := msg_id m; sender := sender m; content := content m;
     messageType := messageType m; attachment := attachment m;
     isRead := isRead m; readAt := readAt m;
     isEdited := isEdited m; editedAt := editedAt m;
     originalContent := originalContent m;
     isDeleted := v; deletedAt := deletedAt m |}.

Definition set_deletedAt (v : option Date) (m : Message) : Message :=
  {| msg_id := msg_id m; sender := sender m; content := content m;
     messageType := messageType m; attachment := attachment m;
     isRead := isRead m; readAt := readAt m;
     isEdited := isEdited m; editedAt := editedAt m;
     originalContent := originalContent m;
     isDeleted := isDeleted m; deletedAt := v |}.

Definition set_lastSeen (v : Date) (p : Participant) : Participant :=
  {| user := user p; joinedAt := joinedAt p; lastSeen := v;
     isActive := isActive p |}.

Definition set_isActive (v : bool) (p : Participant) : Participant :=
  {| user := user p; joinedAt := joinedAt p; lastSeen := lastSeen p;
     isActive := v |}.

Definition set_participants (v : list Participant) (c : Chat) : Chat :=
  {| _id := _id c; participants := v; post := post c;
     chatType := chatType c; title := title c; messages := messages c;
     lastMessage := lastMessage c; status := status c;
     isResolved := isResolved c; resolvedAt := resolvedAt c;
     resolvedBy := resolvedBy c; priority := priority c;
     lastActivity := lastActivity c; autoCloseAt := autoCloseAt c;
     notifications := notifications c; metadata := metadata c |}.

Definition set_messages (v : list Message) (c : Chat) : Chat :=
  {| _id := _id c; participants := participants c; post := post c;
     chatType := chatType c; title := title c; messages := v;
     lastMessage := lastMessage c; status := status c;
     isResolved := isResolved c; resolvedAt := resolvedAt c;
     resolvedBy := resolvedBy c; priority := priority c;
     lastActivity := lastActivity c; autoCloseAt := autoCloseAt c;
     notifications := notifications c; metadata := metadata c |}.

Definition set_lastMessage (v : LastMessage) (c : Chat) : Chat :=
  {| _id := _id c; participants := participants c; post := post c;
     chatType := chatType c; title := title c; messages := messages c;
     lastMessage := v; status := status c;
     isResolved := isResolved c; resolvedAt := resolvedAt c;
     resolvedBy := resolvedBy c; priority := priority c;
     lastActivity := lastActivity c; autoCloseAt := autoCloseAt c;
     notifications := notifications c; metadata := metadata c |}.

Definition set_status (v : Status) (c : Chat) : Chat :=
  {| _id := _id c; participants := participants c; post := post c;
     chatType := chatType c; title := title c; messages := messages c;
     lastMessage := lastMessage c; status := v;
     isResolved := isResolved c; resolvedAt := resolvedAt c;
     resolvedBy := resolvedBy c; priority := priority c;
     lastActivity := lastActivity c; autoCloseAt := autoCloseAt c;
     notifications := notifications c; metadata := metadata c |}.

Definition set_isResolved (v : bool) (c : Chat) : Chat :=
  {| _id := _id c; participants := participants c; post := post c;
     chatType := chatType c; title := title c; messages := messages c;
     lastMessage := lastMessage c; status := status c;
     isResolved := v; resolvedAt := resolvedAt c;
     resolvedBy := resolvedBy c; priority := priority c;
     lastActivity := lastActivity c; autoCloseAt := autoCloseAt c;
     notifications := notifications c; metadata := metadata c |}.

Definition set_resolvedAt (v : option Date) (c : Chat) : Chat :=
  {| _id := _id c; participants := participants c; post := post c;
     chatType := chatType c; title := title c; messages := messages c;
     lastMessage := lastMessage c; status := status c;
     isResolved := isResolved c; resolvedAt := v;
     resolvedBy := resolvedBy c; priority := priority c;
     lastActivity := lastActivity c; autoCloseAt := autoCloseAt c;
     notifications := notifications c; metadata := metadata c |}.

Definition set_resolvedBy (v : option ObjectId) (c : Chat) : Chat :=
  {| _id := _id c; participants := participants c; post := post c;
     chatType := chatType c; title := title c; messages := messages c;
     lastMessage := lastMessage c; status := status c;
     isResolved := isResolved c; resolvedAt := resolvedAt c;
     resolvedBy := v; priority := priority c;
     lastActivity := lastActivity c; autoCloseAt := autoCloseAt c;
     notifications := notifications c; metadata := metadata c |}.

Definition set_lastActivity (v : Date) (c : Chat) : Chat :=
  {| _id := _id c; participants := participants c; post := post c;
     chatType := chatType c; title := title c; messages := messages c;
     lastMessage := lastMessage c; status := status c;
     isResolved := isResolved c; resolvedAt := resolvedAt c;
     resolvedBy := resolvedBy c; priority := priority c;
     lastActivity := v; autoCloseAt := autoCloseAt c;
     notifications := notifications c; metadata := metadata c |}.

Definition set_autoCloseAt (v : Date) (c : Chat) : Chat :=
  {| _id := _id c; participants := participants c; post := post c;
     chatType := chatType c; title := title c; messages := messages c;
     lastMessage := lastMessage c; status := status c;
     isResolved := isResolved c; resolvedAt := resolvedAt c;
     resolvedBy := resolvedBy c; priority := priority c;
     lastActivity := lastActivity c; autoCloseAt := v;
     notifications := notifications c; metadata := metadata c |}.

(** ** The setter and the validators of a message content *)

(** The code units that [String.prototype.trim] removes: TAB, LF, VT, FF, CR,
    SP and NBSP. *)
Definition whitespace (a : ascii) : bool :=
  existsb (Nat.eqb (nat_of_ascii a)) [9; 10; 11; 12; 13; 32; 160].

Fixpoint trimStart (s : string) : string :=
  match s with
  | EmptyString => EmptyString
  | String a s' => if whitespace a then trimStart s' else s
  end.

Fixpoint trimEnd (s : string) : string :=
  match s with
  | EmptyString => EmptyString
  | String a s' =>
      match trimEnd s' with
      | EmptyString => if whitespace a then EmptyString else String a EmptyString
      | t => String a t
      end
  end.

(** [trim: true] of [content]. *)
Definition trim (s : string) : string := trimEnd (trimStart s).

(** [required] and [maxlength: 1000] of [content], run on the value the
    path holds: the message of the validator that fails, if one does. *)
Definition validate_content (v : string) : option string :=
  if String.eqb v "" then Some "Message content is required"
  else if Nat.ltb 1000 (String.length v)
  then Some "Message cannot exceed 1000 characters"
  else None.

(** ** Methods as computations on the document in memory

    [modified_messages] is what [this.isModified('messages')] answers: it is
    raised by a push onto [messages] and by an assignment to a field of one of
    its sub-documents, and lowered when the document is saved.
    [modified_content] lists the positions [i] whose path
    [messages.i.content] has been assigned or pushed since the document was
    loaded. *)

Inductive Error := Error_ (message : string).

(** The error with which [save] rejects when the content of the message at
    [index] fails a validator, and the message Mongoose gives it. *)
Definition ValidationError_message (index : nat) (message : string)
    : string :=
  String.append "Chat validation failed: messages."
    (String.append (NilZero.string_of_uint (Nat.to_uint index))
       (String.append ".content: " message)).

Definition ValidationError (index : nat) (message : string) : Error :=
  Error_ (ValidationError_message index message).

(** How a call ends: it returns [a] (or a promise fulfilled with [a]), it
    throws [e], or it returns a promise that is rejected with [e]. *)
Inductive Completion (A : Type) :=
| Return (a : A)
| Throw (e : Error)
| Reject (e : Error).
Arguments Return {A} a.
Arguments Throw {A} e.
Arguments Reject {A} e.

Record Doc := {
  this : Chat;
  modified_messages : bool;
  modified_content : list nat
}.

Definition Method (A : Type) : Type := Doc -> Completion A * Doc.

Definition ret {A} (a : A) : Method A := fun d => (Return a, d).

Definition bind {A B} (m : Method A) (k : A -> Method B) : Method B :=
  fun d =>
    match m d with
    | (Return a, d') => k a d'
    | (Throw e, d') => (Throw e, d')
    | (Reject e, d') => (Reject e, d')
    end.

Definition throw {A} (e : Error) : Method A := fun d => (Throw e, d).

Declare Scope method_scope.
Delimit Scope method_scope with method.
Notation "x <- m ;; k" := (bind m (fun x => k))
  (at level 61, m at next level, right associativity) : method_scope.
Notation "m ;; k" := (bind m (fun _ => k))
  (at level 61, right associativity) : method_scope.
Local Open Scope method_scope.

(** [this.<path>] read. *)
Definition read {A} (f : Chat -> A) : Method A :=
  fun d => (Return (f (this d)), d).

(** [this.<path> = v] for a path outside [messages]. *)
Definition assign (f : Chat -> Chat) : Method unit :=
  fun d => (Return tt,
            {| this := f (this d); modified_messages := modified_messages d;
               modified_content := modified_content d |}).

(** [this.messages.id(messageId)]: the first sub-document with this [_id],
    or null. *)
Definition id (messageId : ObjectId) (ms : list Message) : option Message :=
  find (fun m => Nat.eqb (msg_id m) messageId) ms.

Definition messages_id (messageId : ObjectId) : Method (option Message) :=
  read (fun c => id messageId (messages c)).

(** The sub-document [messages.id(messageId)] with [f] applied to it, and its
    position in the array. *)
Fixpoint update_id (messageId : ObjectId) (f : Message -> Message)
    (ms : list Message) : list Message :=
  match ms with
  | [] => []
  | m :: ms' =>
      if Nat.eqb (msg_id m) messageId then f m :: ms'
      else m :: update_id messageId f ms'
  end.

Fixpoint index (messageId : ObjectId) (ms : list Message) : nat :=
  match ms with
  | [] => 0
  | m :: ms' =>
      if Nat.eqb (msg_id m) messageId then 0 else S (index messageId ms')
  end.

(** [message.<field> = v] for a field other than [content], where [message]
    is [this.messages.id(messageId)]. *)
Definition assign_message (messageId : ObjectId) (f : Message -> Message)
    : Method unit :=
  fun d => (Return tt,
            {| this := set_messages (update_id messageId f (messages (this d)))
                         (this d);
               modified_messages := true;
               modified_content := modified_content d |}).

(** [message.content = v]: the setter trims [v]. *)
Definition assign_content (messageId : ObjectId) (v : string) : Method unit :=
  fun d => (Return tt,
            {| this := set_messages
                         (update_id messageId (set_content (trim v))
                            (messages (this d)))
                         (this d);
               modified_messages := true;
               modified_content :=
                 modified_content d ++ [index messageId (messages (this d))] |}).

(** [this.messages.push(message)]: the object is cast to a sub-document,
    which trims its content. *)
Definition messages_push (m : Message) : Method unit :=
  fun d => (Return tt,
            {| this := set_messages
                         (messages (this d)
                          ++ [set_content (trim (content m)) m])
                         (this d);
               modified_messages := true;
               modified_content :=
                 modified_content d ++ [List.length (messages (this d))] |}).

(** [this.messages.forEach(message => { if (test(message)) { body } })] where
    [body] assigns to fields of [message] other than [content]. *)
Definition messages_forEach_if (test : Message -> bool)
    (body : Message -> Message) : Method unit :=
  fun d => (Return tt,
            {| this := set_messages
                         (map (fun m => if test m then body m else m)
                            (messages (this d)))
                         (this d);
               modified_messages :=
                 modified_messages d || existsb test (messages (this d));
               modified_content := modified_content d |}).

(** [array.forEach(x => body(x))] over an array that the loop does not
    change. *)
Fixpoint forEach {A} (l : list A) (body : A -> Method unit) : Method unit :=
  match l with
  | [] => ret tt
  | a :: l' => body a ;; forEach l' body
  end.

(** The validation that [save] runs first: the first of the modified
    contents that fails a validator rejects the save. *)
Fixpoint first_error (ms : list Message) (paths : list nat) : option Error :=
  match paths with
  | [] => None
  | i :: paths' =>
      match option_map (fun m => validate_content (content m))
              (nth_error ms i) with
      | Some (Some message) => Some (ValidationError i message)
      | _ => first_error ms paths'
      end
  end.

Definition validate : Method unit :=
  fun d =>
    match first_error (messages (this d)) (modified_content d) with
    | Some e => (Reject e, d)
    | None => (Return tt, d)
    end.

(** [chatSchema.pre('save', ...)]: the hook renews [lastActivity] when
    [messages] has been modified. *)
Definition pre_save (now : Date) : Method unit :=
  fun d =>
    if modified_messages d
    then (Return tt, {| this := set_lastActivity now (this d);
                        modified_messages := modified_messages d;
                        modified_content := modified_content d |})
    else (Return tt, d).

(** [this.save()]: the validation, the hook and the write. *)
Definition save (now : Date) : Method Chat :=
  validate ;;
  pre_save now ;;
  fun d => (Return (this d),
            {| this := this d; modified_messages := false;
               modified_content := [] |}).

(** A method called on a document as loaded from the store: the completion
    and the document in memory afterwards. *)
Definition call {A} (m : Method A) (c : Chat) : Completion A * Chat :=
  let (r, d) :=
    m {| this := c; modified_messages := false; modified_content := [] |} in
  (r, this d).

(** [subdocument.populate(...)] on a sub-document of an array: Mongoose
    populates from the top-level document only, and the call throws. *)
Definition Subdocument_populate {A} (subdocument : A) : Completion A :=
  Throw (Error_ "Mongoose does not support calling populate() on nested docs").

(** ** The instance methods of [chatSchema] *)

Definition week : Z := 7 * 24 * 60 * 60 * 1000.

(** [chatSchema.methods.addMessage]; [newId] is the [_id] the push gives the
    new sub-document, the fields the literal leaves out take their schema
    defaults.  The push trims the content of the message; [lastMessage] has
    no setter and takes the content as it was given. *)
Definition addMessage (now : Date) (newId : ObjectId) (senderId : ObjectId)
    (content : string) (messageType : MessageType)
    (attachment : option Attachment) : Method Chat :=
  let message :=
    {| msg_id := newId; sender := senderId; content := content;
       messageType := messageType; attachment := attachment;
       isRead := false; readAt := None;
       isEdited := false; editedAt := None; originalContent := None;
       isDeleted := false; deletedAt := None |} in
  messages_push message ;;
  assign (set_lastMessage
            {| lm_content := Some content; lm_sender := Some senderId;
               lm_timestamp := Some now; lm_messageType := messageType |}) ;;
  assign (set_lastActivity now) ;;
  assign (set_autoCloseAt (now + week)%Z) ;;
  save now.

(** [participants.find(p => p.user.toString() === userId.toString())] and an
    assignment to the participant found. *)
Fixpoint update_participant (userId : ObjectId)
    (f : Participant -> Participant) (ps : list Participant)
    : list Participant :=
  match ps with
  | [] => []
  | p :: ps' =>
      if Nat.eqb (user p) userId then f p :: ps'
      else p :: update_participant userId f ps'
  end.

(** [chatSchema.methods.markMessagesAsRead]; [messageIds] is [None] for a
    null or missing argument and [Some ids] for an array, which is truthy
    even when it is empty. *)
Definition markMessagesAsRead (now : Date) (userId : ObjectId)
    (messageIds : option (list ObjectId)) : Method Chat :=
  match messageIds with
  | Some ids =>
      forEach ids (fun messageId =>
        message <- messages_id messageId ;;
        match message with
        | Some message =>
            if negb (Nat.eqb (sender message) userId)
            then assign_message messageId (set_isRead true) ;;
                 assign_message messageId (set_readAt (Some now))
            else ret tt
        | None => ret tt
        end)
  | None =>
      messages_forEach_if
        (fun message =>
           negb (isRead message) && negb (Nat.eqb (sender message) userId))
        (fun message => set_readAt (Some now) (set_isRead true message))
  end ;;
  assign (fun c =>
    set_participants
      (update_participant userId (set_lastSeen now) (participants c)) c) ;;
  save now.

Definition MessageNotFound : Error := Error_ "Message not found".
Definition NotAuthorizedToEdit : Error :=
  Error_ "Not authorized to edit this message".
Definition MessageDeleted : Error := Error_ "Cannot edit deleted message".
Definition NotAuthorizedToDelete : Error :=
  Error_ "Not authorized to delete this message".

(** [chatSchema.methods.editMessage]. *)
Definition editMessage (now : Date) (messageId : ObjectId)
    (newContent : string) (userId : ObjectId) : Method Chat :=
  message <- messages_id messageId ;;
  match message with
  | None => throw MessageNotFound
  | Some message =>
      if negb (Nat.eqb (sender message) userId)
      then throw NotAuthorizedToEdit
      else if isDeleted message
      then throw MessageDeleted
      else
        (if negb (isEdited message)
         then assign_message messageId
                (set_originalContent (Some (content message)))
         else ret tt) ;;
        assign_content messageId newContent ;;
        assign_message messageId (set_isEdited true) ;;
        assign_message messageId (set_editedAt (Some now)) ;;
        save now
  end.

Definition tombstone : string := "This message has been deleted".

(** [chatSchema.methods.deleteMessage]. *)
Definition deleteMessage (now : Date) (messageId : ObjectId)
    (userId : ObjectId) : Method Chat :=
  message <- messages_id messageId ;;
  match message with
  | None => throw MessageNotFound
  | Some message =>
      if negb (Nat.eqb (sender message) userId)
      then throw NotAuthorizedToDelete
      else
        assign_message messageId (set_isDeleted true) ;;
        assign_message messageId (set_deletedAt (Some now)) ;;
        assign_content messageId tombstone ;;
        save now
  end.

(** [chatSchema.methods.addParticipant]. *)
Definition addParticipant (now : Date) (userId : ObjectId) : Method Chat :=
  existingParticipant <-
    read (fun c => find (fun p => Nat.eqb (user p) userId) (participants c)) ;;
  match existingParticipant with
  | None =>
      assign (fun c =>
        set_participants
          (participants c ++
             [{| user := userId; joinedAt := now; lastSeen := now;
                 isActive := true |}]) c) ;;
      save now
  | Some _ =>
      assign (fun c =>
        set_participants
          (update_participant userId (set_isActive true) (participants c))
          c) ;;
      save now
  end.

(** [chatSchema.methods.removeParticipant]. *)
Definition removeParticipant (now : Date) (userId : ObjectId)
    : Method Chat :=
  assign (fun c =>
    set_participants
      (update_participant userId (set_isActive false) (participants c)) c) ;;
  save now.

(** [chatSchema.methods.closeChat]; [closedBy] is [None] for a null or
    missing argument. *)
Definition closeChat (now : Date) (closedBy : option ObjectId)
    : Method Chat :=
  assign (set_status closed) ;;
  assign (set_isResolved true) ;;
  assign (set_resolvedAt (Some now)) ;;
  match closedBy with
  | Some closedBy => assign (set_resolvedBy (Some closedBy))
  | None => ret tt
  end ;;
  save now.

(** [chatSchema.methods.getUnreadCount]. *)
Definition getUnreadCount (userId : ObjectId) (c : Chat) : nat :=
  List.length
    (filter
       (fun message =>
          negb (isRead message) &&
          negb (Nat.eqb (sender message) userId) &&
          negb (isDeleted message))
       (messages c)).

(** ** The collection and the static queries of [chatSchema]

    The collection is the list of stored documents, in the order in which a
    scan of the collection meets them. *)

Definition Store := list Chat.

(** [Chat.findById(chatId)]. *)
Definition findById (chatId : ObjectId) (db : Store) : option Chat :=
  find (fun c => Nat.eqb (_id c) chatId) db.

(** The write of [save()] for a document that is already stored, and for a
    new one. *)
Definition write (c : Chat) (db : Store) : Store :=
  map (fun d => if Nat.eqb (_id d) (_id c) then c else d) db.

Definition insert (c : Chat) (db : Store) : Store := db ++ [c].

(** The order of [.sort({ 'lastMessage.timestamp': -1 })]: later stamps
    first, documents without a stamp (null) last. *)
Definition timestamp_geb (a b : option Date) : bool :=
  match a, b with
  | _, None => true
  | None, Some _ => false
  | Some x, Some y => (y <=? x)%Z
  end.

Fixpoint insert_sorted (c : Chat) (l : list Chat) : list Chat :=
  match l with
  | [] => [c]
  | d :: l' =>
      if timestamp_geb (lm_timestamp (lastMessage c))
           (lm_timestamp (lastMessage d))
      then c :: l
      else d :: insert_sorted c l'
  end.

Definition sort_by_lastMessage_timestamp_desc (l : list Chat) : list Chat :=
  fold_right insert_sorted [] l.

(** The filter of [findUserChats].  Each key of the query is a condition of
    its own on the [participants] array: ['participants.user': userId] holds
    when some element has this user, ['participants.isActive': true] when
    some element is active. *)
Definition matches_findUserChats (userId : ObjectId) (st : Status)
    (c : Chat) : bool :=
  existsb (fun p => Nat.eqb (user p) userId) (participants c) &&
  existsb (fun p => isActive p) (participants c) &&
  Status_eqb (status c) st.

(** [chatSchema.statics.findUserChats] (the populated references are left as
    identifiers). *)
Definition findUserChats (userId : ObjectId) (st : Status) (db : Store)
    : list Chat :=
  sort_by_lastMessage_timestamp_desc
    (filter (matches_findUserChats userId st) db).

(** ['participants.user': { $all: userIds }]: every listed user is the user of
    some element; an empty [$all] matches nothing. *)
Definition participants_user_all (userIds : list ObjectId) (c : Chat)
    : bool :=
  match userIds with
  | [] => false
  | _ =>
      forallb
        (fun u => existsb (fun p => Nat.eqb (user p) u) (participants c))
        userIds
  end.

(** [chatSchema.statics.findByPostAndUsers]. *)
Definition findByPostAndUsers (postId : ObjectId) (userIds : list ObjectId)
    (db : Store) : option Chat :=
  find
    (fun c =>
       Nat.eqb (post c) postId &&
       participants_user_all userIds c &&
       negb (Status_eqb (status c) archived))
    db.

(** [chatSchema.statics.findExpired]. *)
Definition findExpired (now : Date) (db : Store) : list Chat :=
  filter
    (fun c => Status_eqb (status c) active && (autoCloseAt c <? now)%Z)
    db.

(** ** The Socket.io handlers of [server.js]

    A handler runs for the authenticated user [me] ([socket.user._id]) and
    reads the clock once ([now]).  It yields the collection afterwards and what
    it did on the socket, in order. *)

Inductive Room :=
| chat_ (chatId : ObjectId)
| user_ (userId : ObjectId).

Inductive Event :=
| error (message : string)
| user_online (userId : ObjectId)
| new_message (chatId : ObjectId) (message : Message)
| message_edited (chatId messageId : ObjectId) (newContent : string)
    (editedAt : Date)
| message_deleted (chatId messageId : ObjectId) (deletedAt : Date)
| messages_read (userId : ObjectId) (messageIds : option (list ObjectId))
| chat_created (chat : Chat)
| new_chat (chat : Chat).

Inductive Action :=
| socket_emit (e : Event)
| socket_to_emit (room : Room) (e : Event)
| io_to_emit (room : Room) (e : Event)
| socket_join (room : Room).

(** [chat.participants.some(p => p.user.toString() === me.toString() &&
    p.isActive)]. *)
Definition isParticipant (me : ObjectId) (chat : Chat) : bool :=
  existsb (fun p => Nat.eqb (user p) me && isActive p) (participants chat).

(** [socket.on('join_chat', ...)]. *)
Definition join_chat (me : ObjectId) (now : Date) (chatId : ObjectId)
    (db : Store) : Store * list Action :=
  match findById chatId db with
  | None => (db, [socket_emit (error "Chat not found")])
  | Some chat =>
      if negb (isParticipant me chat)
      then (db, [socket_emit (error "Not authorized to join this chat")])
      else
        match call (markMessagesAsRead now me None) chat with
        | (Return saved, _) =>
            (write saved db,
             [socket_join (chat_ chatId);
              socket_to_emit (chat_ chatId) (user_online me)])
        | (Throw _, _) | (Reject _, _) =>
            (db, [socket_join (chat_ chatId);
                  socket_emit (error "Failed to join chat")])
        end
  end.

(** [chat.messages[chat.messages.length - 1]]. *)
Definition last_message (chat : Chat) : option Message :=
  match rev (messages chat) with
  | newMessage :: _ => Some newMessage
  | [] => None
  end.

(** [socket.on('send_message', ...)]; a missing [messageType] is ['text'].
    The message is saved before the handler populates its sender, and the
    message is a sub-document. *)
Definition send_message (me : ObjectId) (now : Date) (newId : ObjectId)
    (chatId : ObjectId) (content : string)
    (messageType : option MessageType) (attachment : option Attachment)
    (db : Store) : Store * list Action :=
  let messageType :=
    match messageType with Some t => t | None => text end in
  match findById chatId db with
  | None => (db, [socket_emit (error "Chat not found")])
  | Some chat =>
      if negb (isParticipant me chat)
      then (db, [socket_emit
                   (error "Not authorized to send messages in this chat")])
      else
        match call (addMessage now newId me content messageType attachment)
                chat with
        | (Return saved, chat) =>
            let db := write saved db in
            match option_map Subdocument_populate (last_message chat) with
            | Some (Return newMessage) =>
                (db,
                 [io_to_emit (chat_ chatId) (new_message chatId newMessage)])
            | _ => (db, [socket_emit (error "Failed to send message")])
            end
        | (Throw _, _) | (Reject _, _) =>
            (db, [socket_emit (error "Failed to send message")])
        end
  end.

(** [socket.on('edit_message', ...)]. *)
Definition edit_message (me : ObjectId) (now : Date)
    (chatId messageId : ObjectId) (newContent : string) (db : Store)
    : Store * list Action :=
  match findById chatId db with
  | None => (db, [socket_emit (error "Chat not found")])
  | Some chat =>
      match call (editMessage now messageId newContent me) chat with
      | (Return saved, _) =>
          (write saved db,
           [io_to_emit (chat_ chatId)
              (message_edited chatId messageId newContent now)])
      | (Throw (Error_ message), _) | (Reject (Error_ message), _) =>
          (db, [socket_emit (error message)])
      end
  end.

(** [socket.on('delete_message', ...)]. *)
Definition delete_message (me : ObjectId) (now : Date)
    (chatId messageId : ObjectId) (db : Store) : Store * list Action :=
  match findById chatId db with
  | None => (db, [socket_emit (error "Chat not found")])
  | Some chat =>
      match call (deleteMessage now messageId me) chat with
      | (Return saved, _) =>
          (write saved db,
           [io_to_emit (chat_ chatId)
              (message_deleted chatId messageId now)])
      | (Throw (Error_ message), _) | (Reject (Error_ message), _) =>
          (db, [socket_emit (error message)])
      end
  end.

(** [socket.on('mark_read', ...)]. *)
Definition mark_read (me : ObjectId) (now : Date) (chatId : ObjectId)
    (messageIds : option (list ObjectId)) (db : Store)
    : Store * list Action :=
  match findById chatId db with
  | None => (db, [socket_emit (error "Chat not found")])
  | Some chat =>
      match call (markMessagesAsRead now me messageIds) chat with
      | (Return saved, _) =>
          (write saved db,
           [socket_to_emit (chat_ chatId) (messages_read me messageIds)])
      | (Throw _, _) | (Reject _, _) =>
          (db, [socket_emit (error "Failed to mark messages as read")])
      end
  end.

(** [new Chat({ participants: [{ user: me }, { user: participantId }], post:
    postId, title: ... })] with the schema defaults; [newChatId] is the [_id]
    of the new document. *)
Definition new_Chat (now : Date) (newChatId me participantId postId : ObjectId)
    : Chat :=
  {| _id := newChatId;
     participants :=
       [{| user := me; joinedAt := now; lastSeen := now; isActive := true |};
        {| user := participantId; joinedAt := now; lastSeen := now;
           isActive := true |}];
     post := postId;
     chatType := inquiry;
     title := Some "Discussion about post";
     messages := [];
     lastMessage :=
       {| lm_content := None; lm_sender := None; lm_timestamp := None;
          lm_messageType := text |};
     status := active;
     isResolved := false;
     resolvedAt := None;
     resolvedBy := None;
     priority := medium;
     lastActivity := now;
     autoCloseAt := (now + week)%Z;
     notifications := {| enabled := true; muteUntil := None |};
     metadata :=
       {| itemReturned := false; meetingArranged := false;
          meetingLocation := None; meetingTime := None;
          contactShared := false |} |}.

(** [if (initialMessage)]: a missing, null or empty string is falsy. *)
Definition truthy (s : option string) : option string :=
  match s with
  | Some "" => None
  | other => other
  end.

(** [socket.on('create_chat', ...)]; the new conversation is saved before
    the initial message is added. *)
Definition create_chat (me : ObjectId) (now : Date)
    (newChatId newId : ObjectId) (postId participantId : ObjectId)
    (initialMessage : option string) (db : Store) : Store * list Action :=
  match findByPostAndUsers postId [me; participantId] db with
  | Some existingChat => (db, [socket_emit (chat_created existingChat)])
  | None =>
      let chat := new_Chat now newChatId me participantId postId in
      let db := insert chat db in
      let created (chat : Chat) :=
        [socket_join (chat_ (_id chat));
         io_to_emit (user_ participantId) (new_chat chat);
         socket_emit (chat_created chat)] in
      match truthy initialMessage with
      | Some initialMessage =>
          match call (addMessage now newId me initialMessage text None)
                  chat with
          | (Return saved, chat) => (write saved db, created chat)
          | (Throw _, _) | (Reject _, _) =>
              (db, [socket_emit (error "Failed to create chat")])
          end
      | None => (db, created chat)
      end
  end.

(** [cleanupExpiredContent] of [server.js], on the chats.  The statements
    on posts come first, inside the same [try]; [Post] stands for their
    outcome: [None] when they throw, so that the [catch] logs the error and
    the function ends, [Some n] when they complete, the loop over
    [Post.findExpired()] having marked [n] posts.  In [server.js] as it
    stands they throw: the module binds no name [Post] (it requires only
    [./models/Chat] and [./models/User]).  The second component is what the
    function logs. *)
Inductive Log :=
| console_error (message : string)
| console_log_cleaned (expiredPosts expiredChats : nat).

Definition cleanupExpiredContent (Post : option nat) (now : Date)
    (db : Store) : Store * list Log :=
  match Post with
  | None => (db, [console_error "Cleanup error:"])
  | Some expiredPosts =>
      let expiredChats := findExpired now db in
      let db :=
        fold_left
          (fun db chat =>
             match call (closeChat now None) chat with
             | (Return saved, _) => write saved db
             | (Throw _, _) | (Reject _, _) => db
             end)
          expiredChats db in
      (db,
       if Nat.ltb 0 expiredPosts || Nat.ltb 0 (List.length expiredChats)
       then [console_log_cleaned expiredPosts (List.length expiredChats)]
       else [])
  end.

(** ** The routes and the middleware that read the chats *)

(** [res.status(code).json({ success: false, error, retryAfter })]. *)
Record Response := {
  code : nat;
  error_ : string;
  retryAfter : option Z
}.

(** What a middleware does: [next()], with what it has put on the request,
    or a response. *)
Inductive Outcome (A : Type) :=
| next (a : A)
| respond (r : Response).
Arguments next {A} a.
Arguments respond {A} r.

(** [validateChatParticipation] of [middleware/auth.js]; the two arguments
    after [me] are [req.params.id] and [req.params.chatId], [None] when the
    route has no such parameter; [next] carries [req.chat]. *)
Definition validateChatParticipation (me : ObjectId)
    (params_id params_chatId : option ObjectId) (db : Store)
    : Outcome Chat :=
  let chatId :=
    match params_id with Some i => Some i | None => params_chatId end in
  match
    match chatId with Some chatId => findById chatId db | None => None end
  with
  | None =>
      respond {| code := 404; error_ := "Chat not found";
                 retryAfter := None |}
  | Some chat =>
      if negb (isParticipant me chat)
      then respond {| code := 403;
                      error_ := "Not authorized to access this chat";
                      retryAfter := None |}
      else next chat
  end.

(** [Chat.countDocuments({ 'participants.user': me, 'participants.isActive':
    true })] of the statistics route of [routes/auth.js]. *)
Definition stats_totalChats (me : ObjectId) (db : Store) : nat :=
  List.length
    (filter
       (fun c =>
          existsb (fun p => Nat.eqb (user p) me) (participants c) &&
          existsb (fun p => isActive p) (participants c))
       db).

(** *** The rate limiter

    [rateLimit(maxRequests, windowMs)] owns a [Map] from a client to the
    times of its requests; the middleware it returns is a step on that map.
    A client is [req.ip || req.connection.remoteAddress], [None] when both
    are missing. *)
Definition ClientId := option string.

Definition ClientId_eqb (a b : ClientId) : bool :=
  match a, b with
  | Some x, Some y => String.eqb x y
  | None, None => true
  | _, _ => false
  end.

Definition Requests := ClientId -> option (list Date).

(** [new Map()], [requests.set(clientId, times)]. *)
Definition Requests_new : Requests := fun _ => None.

Definition Requests_set (clientId : ClientId) (times : list Date)
    (requests : Requests) : Requests :=
  fun k => if ClientId_eqb k clientId then Some times else requests k.

Definition clientId_of (ip remoteAddress : option string) : ClientId :=
  match truthy ip with
  | Some ip => Some ip
  | None => remoteAddress
  end.

Definition rateLimit (maxRequests windowMs : Z)
    (ip remoteAddress : option string) (now : Date) (requests : Requests)
    : Outcome unit * Requests :=
  let clientId := clientId_of ip remoteAddress in
  let windowStart := (now - windowMs)%Z in
  let requests :=
    match requests clientId with
    | Some clientRequests =>
        Requests_set clientId
          (filter (fun time => (windowStart <? time)%Z) clientRequests)
          requests
    | None => requests
    end in
  let currentRequests :=
    match requests clientId with Some times => times | None => [] end in
  if (maxRequests <=? Z.of_nat (List.length currentRequests))%Z
  then (respond {| code := 429;
                   error_ := "Too many requests, please try again later";
                   retryAfter := Some (- (- windowMs / 1000))%Z |},
        requests)
  else (next tt, Requests_set clientId (currentRequests ++ [now]) requests).

(** ** Notions used to state the properties *)

(** A request as the rate limiter sees it. *)
Record Request := {
  req_ip : option string;
  req_remoteAddress : option string;
  req_time : Date
}.

Definition req_client (r : Request) : ClientId :=
  clientId_of (req_ip r) (req_remoteAddress r).

(** The limiter serving requests one after the other: each request with
    whether it passed, and the map afterwards. *)
Fixpoint serve (maxRequests windowMs : Z) (reqs : list Request)
    (requests : Requests) : list (Request * bool) * Requests :=
  match reqs with
  | [] => ([], requests)
  | r :: reqs' =>
      let (o, requests') :=
        rateLimit maxRequests windowMs (req_ip r) (req_remoteAddress r)
          (req_time r) requests in
      let (served, requests'') := serve maxRequests windowMs reqs' requests' in
      ((r, match o with next _ => true | respond _ => false end) :: served,
       requests'')
  end.

(** [requests.get(clientId) || []]. *)
Definition stored_times (requests : Requests) (clientId : ClientId)
    : list Date :=
  match requests clientId with Some times => times | None => [] end.

(** Whether the middleware called [next()]. *)
Definition passed {A} (o : Outcome A) : bool :=
  match o with next _ => true | respond _ => false end.

(** The times of the requests of a client that passed. *)
Definition passed_times (clientId : ClientId) (served : list (Request * bool))
    : list Date :=
  map (fun s => req_time (fst s))
    (filter (fun s => snd s && ClientId_eqb (req_client (fst s)) clientId)
       served).

(** The clock does not go back: each time is at least [t0] and the one
    before it. *)
Fixpoint clock_from (t0 : Date) (times : list Date) : Prop :=
  match times with
  | [] => True
  | t :: times' => (t0 <= t)%Z /\ clock_from t times'
  end.

(** The times of a list that fall in the window that ends at [s]. *)
Definition in_window (windowMs s : Z) (times : list Date) : list Date :=
  filter (fun t => (s - windowMs <? t)%Z && (t <=? s)%Z) times.

(** The document [closeChat] saves when no closer is given. *)
Definition closed_at (now : Date) (c : Chat) : Chat :=
  set_resolvedAt (Some now) (set_isResolved true (set_status closed c)).

(** The test of [findExpired]. *)
Definition expired (now : Date) (c : Chat) : bool :=
  Status_eqb (status c) active && (autoCloseAt c <? now)%Z.

(** The first entry of a user among the participants. *)
Definition entry (userId : ObjectId) (ps : list Participant)
    : option Participant :=
  find (fun p => Nat.eqb (user p) userId) ps.



(** Successive edits of one message by one user, each on the document the
    previous edit saved; [None] as soon as an edit throws or is rejected. *)
Fixpoint edit_all (edits : list (Date * string)) (messageId userId : ObjectId)
    (c : Chat) : option Chat :=
  match edits with
  | [] => Some c
  | (now, newContent) :: edits' =>
      match call (editMessage now messageId newContent userId) c with
      | (Return saved, _) => edit_all edits' messageId userId saved
      | (Throw _, _) | (Reject _, _) => None
      end
  end.

(** What [editMessage], [deleteMessage] and [markMessagesAsRead] leave of a
    message they assign to. *)
Definition edit_fields (now : Date) (newContent : string) (m : Message)
    : Message :=
  set_editedAt (Some now)
    (set_isEdited true
       (set_content (trim newContent)
          (if isEdited m then m
           else set_originalContent (Some (content m)) m))).

Definition delete_fields (now : Date) (m : Message) : Message :=
  set_content tombstone (set_deletedAt (Some now) (set_isDeleted true m)).

Definition read_fields (now : Date) (m : Message) : Message :=
  set_readAt (Some now) (set_isRead true m).

(** Whether the message of this id exists and was sent by someone else than
    [userId]: the test of the loop of [markMessagesAsRead] over listed ids. *)
Definition sent_by_other (userId : ObjectId) (ms : list Message)
    (messageId : ObjectId) : bool :=
  match id messageId ms with
  | Some message => negb (Nat.eqb (sender message) userId)
  | None => false
  end.

(** The test of the loop of [markMessagesAsRead] over all messages. *)
Definition unread_by_other (userId : ObjectId) (message : Message) : bool :=
  negb (isRead message) && negb (Nat.eqb (sender message) userId).

(** Whether [markMessagesAsRead userId messageIds] assigns to at least one
    message of [c]. *)
Definition marks_some (userId : ObjectId) (messageIds : option (list ObjectId))
    (c : Chat) : bool :=
  match messageIds with
  | Some ids => existsb (sent_by_other userId (messages c)) ids
  | None => existsb (unread_by_other userId) (messages c)
  end.

(** The messages after the loops of [markMessagesAsRead]. *)
Fixpoint marked_ids (now : Date) (userId : ObjectId) (ids : list ObjectId)
    (ms : list Message) : list Message :=
  match ids with
  | [] => ms
  | messageId :: ids' =>
      marked_ids now userId ids'
        (if sent_by_other userId ms messageId
         then update_id messageId (read_fields now) ms
         else ms)
  end.

Definition marked (now : Date) (userId : ObjectId)
    (messageIds : option (list ObjectId)) (ms : list Message)
    : list Message :=
  match messageIds with
  | Some ids => marked_ids now userId ids ms
  | None =>
      map (fun m => if unread_by_other userId m then read_fields now m else m)
        ms
  end.

(** The test of [getUnreadCount]. *)
Definition unread_for (userId : ObjectId) (message : Message) : bool :=
  negb (isRead message) &&
  negb (Nat.eqb (sender message) userId) &&
  negb (isDeleted message).

(** The order of the sort: [a] may come before [b]. *)
Definition not_before (a b : Chat) : Prop :=
  timestamp_geb (lm_timestamp (lastMessage a)) (lm_timestamp (lastMessage b))
  = true.

(** The completion of a method with [f] applied to the value returned. *)
Definition map_Completion {A B} (f : A -> B) (r : Completion A)
    : Completion B :=
  match r with
  | Return a => Return (f a)
  | Throw e => Throw e
  | Reject e => Reject e
  end.

(** ** Sample documents *)

Definition sample_message : Message :=
  {| msg_id := 1; sender := 7; content := "is this yours?";
     messageType := text; attachment := None;
     isRead := false; readAt := None;
     isEdited := false; editedAt := None; originalContent := None;
     isDeleted := false; deletedAt := None |}.

(** A conversation about post 42 between users 7 and 8, last touched at
    time 5. *)
Definition sample_chat (st : Status) (ms : list Message) : Chat :=
  {| _id := 50;
     participants :=
       [{| user := 7; joinedAt := 1%Z; lastSeen := 1%Z; isActive := true |};
        {| user := 8; joinedAt := 1%Z; lastSeen := 1%Z; isActive := true |}];
     post := 42;
     chatType := inquiry;
     title := Some "Discussion about post";
     messages := ms;
     lastMessage :=
       {| lm_content := None; lm_sender := None; lm_timestamp := None;
          lm_messageType := text |};
     status := st;
     isResolved := false;
     resolvedAt := None;
     resolvedBy := None;
     priority := medium;
     lastActivity := 5%Z;
     autoCloseAt := (5 + week)%Z;
     notifications := {| enabled := true; muteUntil := None |};
     metadata :=
       {| itemReturned := false; meetingArranged := false;
          meetingLocation := None; meetingTime := None;
          contactShared := false |} |}.

(** A conversation that user 7 has left while user 8 is still in it. *)
Definition sample_left_chat : Chat :=
  set_participants
    [{| user := 7; joinedAt := 1%Z; lastSeen := 1%Z; isActive := false |};
     {| user := 8; joinedAt := 1%Z; lastSeen := 1%Z; isActive := true |}]
    (sample_chat active []).

(** * Properties *)

(** ** Sub-document arrays *)

Lemma id_update_id (messageId : ObjectId) (f : Message -> Message)
    (ms : list Message) :
  (forall m, msg_id (f m) = msg_id m) ->
  id messageId (update_id messageId f ms) = option_map f (id messageId ms).
Proof.
  intros Hf. unfold id.
  induction ms as [|m ms IH]; simpl; [reflexivity|].
  destruct (Nat.eqb (msg_id m) messageId) eqn:E; simpl.
  - rewrite Hf, E. reflexivity.
  - rewrite E. exact IH.
Qed.

Lemma id_update_id_other (messageId other : ObjectId)
    (f : Message -> Message) (ms : list Message) :
  (forall m, msg_id (f m) = msg_id m) ->
  other <> messageId ->
  id other (update_id messageId f ms) = id other ms.
Proof.
  intros Hf Hne. unfold id.
  induction ms as [|m ms IH]; simpl; [reflexivity|].
  destruct (Nat.eqb (msg_id m) messageId) eqn:E; simpl.
  - rewrite Hf. apply Nat.eqb_eq in E. rewrite E.
    destruct (Nat.eqb messageId other) eqn:E'; [|reflexivity].
    apply Nat.eqb_eq in E'. congruence.
  - destruct (Nat.eqb (msg_id m) other); [reflexivity|exact IH].
Qed.

Lemma update_id_update_id (messageId : ObjectId) (f g : Message -> Message)
    (ms : list Message) :
  (forall m, msg_id (g m) = msg_id m) ->
  update_id messageId f (update_id messageId g ms)
  = update_id messageId (fun m => f (g m)) ms.
Proof.
  intros Hg.
  induction ms as [|m ms IH]; simpl; [reflexivity|].
  destruct (Nat.eqb (msg_id m) messageId) eqn:E; simpl.
  - rewrite Hg, E. reflexivity.
  - rewrite E, IH. reflexivity.
Qed.

Lemma update_id_absent (messageId : ObjectId) (f : Message -> Message)
    (ms : list Message) :
  id messageId ms = None -> update_id messageId f ms = ms.
Proof.
  unfold id. induction ms as [|m ms IH]; simpl; [reflexivity|].
  destruct (Nat.eqb (msg_id m) messageId); [discriminate|].
  intros H. rewrite (IH H). reflexivity.
Qed.

Lemma id_found (messageId : ObjectId) (ms : list Message) (m : Message) :
  id messageId ms = Some m -> In m ms /\ msg_id m = messageId.
Proof.
  unfold id. intros H. apply find_some in H. destruct H as [Hin E].
  apply Nat.eqb_eq in E. auto.
Qed.

Lemma update_id_ext (messageId : ObjectId) (f g : Message -> Message)
    (ms : list Message) (m : Message) :
  id messageId ms = Some m -> f m = g m ->
  update_id messageId f ms = update_id messageId g ms.
Proof.
  unfold id. intros Hid Hfg.
  induction ms as [|m0 ms IH]; simpl in *; [reflexivity|].
  destruct (Nat.eqb (msg_id m0) messageId).
  - injection Hid as ->. rewrite Hfg. reflexivity.
  - rewrite (IH Hid). reflexivity.
Qed.

Lemma count_update_id (P : Message -> bool) (messageId : ObjectId)
    (f : Message -> Message) (ms : list Message) (m : Message) :
  id messageId ms = Some m ->
  List.length (filter P (update_id messageId f ms))
  + (if P m then 1 else 0)
  = List.length (filter P ms) + (if P (f m) then 1 else 0).
Proof.
  unfold id. induction ms as [|m0 ms IH]; cbn; [discriminate|].
  destruct (Nat.eqb (msg_id m0) messageId).
  - intros H. injection H as ->. cbn [filter].
    destruct (P m), (P (f m)); cbn [List.length]; lia.
  - intros H. specialize (IH H). cbn [filter].
    destruct (P m0); cbn [List.length]; lia.
Qed.

Lemma index_update_id (messageId : ObjectId) (f : Message -> Message)
    (ms : list Message) :
  (forall m, msg_id (f m) = msg_id m) ->
  index messageId (update_id messageId f ms) = index messageId ms.
Proof.
  intros Hf. induction ms as [|m ms IH]; simpl; [reflexivity|].
  destruct (Nat.eqb (msg_id m) messageId) eqn:E; simpl.
  - rewrite Hf, E. reflexivity.
  - rewrite E, IH. reflexivity.
Qed.

Lemma nth_error_update_id (messageId : ObjectId) (f : Message -> Message)
    (ms : list Message) (m : Message) :
  id messageId ms = Some m ->
  nth_error (update_id messageId f ms) (index messageId ms) = Some (f m).
Proof.
  unfold id. induction ms as [|m0 ms IH]; simpl; [discriminate|].
  destruct (Nat.eqb (msg_id m0) messageId) eqn:E; simpl.
  - intros H. injection H as ->. reflexivity.
  - exact IH.
Qed.

Lemma nth_error_snoc (ms : list Message) (m : Message) :
  nth_error (ms ++ [m]) (List.length ms) = Some m.
Proof. induction ms as [|m0 ms IH]; simpl; [reflexivity|exact IH]. Qed.

(** ** The methods, run *)

(** [save] after one content has been assigned or pushed. *)
Lemma save_one_content (now : Date) (c : Chat) (i : nat) (m : Message) :
  nth_error (messages c) i = Some m ->
  save now {| this := c; modified_messages := true; modified_content := [i] |}
  = match validate_content (content m) with
    | None =>
        (Return (set_lastActivity now c),
         {| this := set_lastActivity now c; modified_messages := false;
            modified_content := [] |})
    | Some message =>
        (Reject (ValidationError i message),
         {| this := c; modified_messages := true; modified_content := [i] |})
    end.
Proof.
  intros H. unfold save, validate, bind.
  cbn [this modified_content first_error].
  rewrite H. cbn [option_map].
  destruct (validate_content (content m)); reflexivity.
Qed.

Ltac run_method :=
  unfold call, editMessage, deleteMessage, addMessage, closeChat,
    markMessagesAsRead, save, pre_save, assign_message, messages_push,
    messages_forEach_if, assign, messages_id, read, bind, ret, throw;
  cbn.

Lemma editMessage_not_found (now : Date) (messageId : ObjectId)
    (newContent : string) (userId : ObjectId) (c : Chat) :
  id messageId (messages c) = None ->
  call (editMessage now messageId newContent userId) c
  = (Throw MessageNotFound, c).
Proof. intros H. run_method. rewrite H. reflexivity. Qed.

Lemma editMessage_not_sender (now : Date) (messageId : ObjectId)
    (newContent : string) (userId : ObjectId) (c : Chat) (m : Message) :
  id messageId (messages c) = Some m -> sender m <> userId ->
  call (editMessage now messageId newContent userId) c
  = (Throw NotAuthorizedToEdit, c).
Proof.
  intros H Hs. run_method. rewrite H.
  apply Nat.eqb_neq in Hs. rewrite Hs. reflexivity.
Qed.

Lemma editMessage_deleted (now : Date) (messageId : ObjectId)
    (newContent : string) (userId : ObjectId) (c : Chat) (m : Message) :
  id messageId (messages c) = Some m -> sender m = userId ->
  isDeleted m = true ->
  call (editMessage now messageId newContent userId) c
  = (Throw MessageDeleted, c).
Proof.
  intros H Hs Hd. run_method. rewrite H.
  apply Nat.eqb_eq in Hs. rewrite Hs, Hd. reflexivity.
Qed.

(** An edit that passes the three checks: it is saved when the trimmed text
    passes the validators, and rejected otherwise, the hook not having run. *)
Lemma editMessage_runs (now : Date) (messageId : ObjectId)
    (newContent : string) (userId : ObjectId) (c : Chat) (m : Message) :
  id messageId (messages c) = Some m -> sender m = userId ->
  isDeleted m = false ->
  let edited :=
    set_messages
      (update_id messageId (edit_fields now newContent) (messages c)) c in
  call (editMessage now messageId newContent userId) c
  = match validate_content (trim newContent) with
    | None =>
        (Return (set_lastActivity now edited), set_lastActivity now edited)
    | Some message =>
        (Reject (ValidationError (index messageId (messages c)) message),
         edited)
    end.
Proof.
  intros H Hs Hd. cbv zeta.
  unfold call, editMessage, messages_id, read. unfold bind at 1.
  cbn [this]. rewrite H.
  apply Nat.eqb_eq in Hs. rewrite Hs, Hd. cbn [negb].
  destruct (isEdited m) eqn:He; cbn [negb];
    unfold bind, assign_message, assign_content, ret;
    cbn [this modified_messages modified_content messages set_messages app];
    rewrite !update_id_update_id by reflexivity;
    rewrite ?index_update_id by reflexivity.
  all: erewrite (update_id_ext messageId _ (edit_fields now newContent));
    [ | eassumption | unfold edit_fields; rewrite He; reflexivity ].
  all: rewrite (save_one_content now _ _ (edit_fields now newContent m))
    by (cbn [messages set_messages]; apply nth_error_update_id, H).
  all: replace (content (edit_fields now newContent m)) with (trim newContent)
    by (unfold edit_fields; reflexivity).
  all: destruct (validate_content (trim newContent)); reflexivity.
Qed.

Lemma editMessage_saved (now : Date) (messageId : ObjectId)
    (newContent : string) (userId : ObjectId) (c : Chat) (m : Message) :
  id messageId (messages c) = Some m -> sender m = userId ->
  isDeleted m = false ->
  validate_content (trim newContent) = None ->
  let saved :=
    set_lastActivity now
      (set_messages
         (update_id messageId (edit_fields now newContent) (messages c)) c) in
  call (editMessage now messageId newContent userId) c
  = (Return saved, saved).
Proof.
  intros H Hs Hd Hv.
  rewrite (editMessage_runs _ _ _ _ _ m H Hs Hd), Hv. reflexivity.
Qed.


Lemma deleteMessage_not_found (now : Date) (messageId userId : ObjectId)
    (c : Chat) :
  id messageId (messages c) = None ->
  call (deleteMessage now messageId userId) c = (Throw MessageNotFound, c).
Proof. intros H. run_method. rewrite H. reflexivity. Qed.

Lemma deleteMessage_not_sender (now : Date) (messageId userId : ObjectId)
    (c : Chat) (m : Message) :
  id messageId (messages c) = Some m -> sender m <> userId ->
  call (deleteMessage now messageId userId) c
  = (Throw NotAuthorizedToDelete, c).
Proof.
  intros H Hs. run_method. rewrite H.
  apply Nat.eqb_neq in Hs. rewrite Hs. reflexivity.
Qed.

Lemma deleteMessage_saved (now : Date) (messageId userId : ObjectId)
    (c : Chat) (m : Message) :
  id messageId (messages c) = Some m -> sender m = userId ->
  let saved :=
    set_lastActivity now
      (set_messages
         (update_id messageId (delete_fields now) (messages c)) c) in
  call (deleteMessage now messageId userId) c = (Return saved, saved).
Proof.
  intros H Hs. cbv zeta.
  unfold call, deleteMessage, messages_id, read. unfold bind at 1.
  cbn [this]. rewrite H.
  apply Nat.eqb_eq in Hs. rewrite Hs. cbn [negb].
  unfold bind, assign_message, assign_content.
  cbn [this modified_messages modified_content messages set_messages app].
  rewrite !update_id_update_id by reflexivity.
  rewrite !index_update_id by reflexivity.
  rewrite (save_one_content now _ _ (delete_fields now m))
    by (cbn [messages set_messages]; apply nth_error_update_id, H).
  reflexivity.
Qed.

(** ** Editing a message *)

Lemma msg_id_edit_fields (now : Date) (newContent : string) (m : Message) :
  msg_id (edit_fields now newContent m) = msg_id m.
Proof. unfold edit_fields. destruct (isEdited m); reflexivity. Qed.

Lemma sender_edit_fields (now : Date) (newContent : string) (m : Message) :
  sender (edit_fields now newContent m) = sender m.
Proof. unfold edit_fields. destruct (isEdited m); reflexivity. Qed.


(** What the validators of [content] ask of the value they are run on. *)
Lemma validate_content_None (v : string) :
  validate_content v = None <-> v <> "" /\ String.length v <= 1000.
Proof.
  unfold validate_content.
  destruct (String.eqb v "") eqn:E.
  - apply String.eqb_eq in E. split; [discriminate|tauto].
  - apply String.eqb_neq in E.
    destruct (Nat.ltb 1000 (String.length v)) eqn:L.
    + apply Nat.ltb_lt in L. split; [discriminate|]. intros [_ H]. lia.
    + apply Nat.ltb_ge in L. split; [auto|reflexivity].
Qed.





(** C5.  [editMessage] fails with "Message not found" when the conversation
    has no message of this id, with "Not authorized to edit this message"
    when the requester is not the sender, and with "Cannot edit deleted
    message" when the sender edits a tombstoned message; a tombstoned message
    is never edited; every failure leaves the document, and so the message,
    as it was, and the handler answers it with one error event to the
    requesting socket and writes nothing. *)
Theorem C5_edit_failures (c : Chat) (now : Date) (messageId : ObjectId)
    (newContent : string) (userId : ObjectId) :
  (id messageId (messages c) = None ->
   call (editMessage now messageId newContent userId) c
   = (Throw MessageNotFound, c)) /\
  (forall m, id messageId (messages c) = Some m -> sender m <> userId ->
   call (editMessage now messageId newContent userId) c
   = (Throw NotAuthorizedToEdit, c)) /\
  (forall m, id messageId (messages c) = Some m -> sender m = userId ->
   isDeleted m = true ->
   call (editMessage now messageId newContent userId) c
   = (Throw MessageDeleted, c)) /\
  (forall m, id messageId (messages c) = Some m -> isDeleted m = true ->
   exists e,
     call (editMessage now messageId newContent userId) c = (Throw e, c)) /\
  (forall e c',
   call (editMessage now messageId newContent userId) c = (Throw e, c') ->
   c' = c /\
   (e = MessageNotFound \/ e = NotAuthorizedToEdit \/ e = MessageDeleted)) /\
  (forall message c' db chatId,
   findById chatId db = Some c ->
   call (editMessage now messageId newContent userId) c
   = (Throw (Error_ message), c') ->
   edit_message userId now chatId messageId newContent db
   = (db, [socket_emit (error message)])).
Proof.
  split; [apply editMessage_not_found|].
  split; [apply editMessage_not_sender|].
  split; [apply editMessage_deleted|].
  split.
  { intros m Hid Hd. destruct (Nat.eq_dec (sender m) userId) as [Hs|Hs].
    - eexists. apply (editMessage_deleted _ _ _ _ _ m Hid Hs Hd).
    - eexists. apply (editMessage_not_sender _ _ _ _ _ m Hid Hs). }
  split.
  { intros e c' H.
    destruct (id messageId (messages c)) as [m|] eqn:Hid.
    - destruct (Nat.eq_dec (sender m) userId) as [Hs|Hs].
      + destruct (isDeleted m) eqn:Hd.
        * rewrite (editMessage_deleted _ _ _ _ _ m Hid Hs Hd) in H.
          injection H as <- <-. auto.
        * rewrite (editMessage_runs _ _ _ _ _ m Hid Hs Hd) in H.
          destruct (validate_content (trim newContent)); discriminate.
      + rewrite (editMessage_not_sender _ _ _ _ _ m Hid Hs) in H.
        injection H as <- <-. auto.
    - rewrite (editMessage_not_found _ _ _ _ _ Hid) in H.
      injection H as <- <-. auto. }
  intros message c' db chatId Hfind H.
  unfold edit_message. rewrite Hfind, H. reflexivity.
Qed.

Lemma C5_edit_failures_witness :
  call (editMessage 10%Z 2 "hello" 7) (sample_chat active [sample_message])
  = (Throw MessageNotFound, sample_chat active [sample_message]) /\
  call (editMessage 10%Z 1 "hello" 8) (sample_chat active [sample_message])
  = (Throw NotAuthorizedToEdit, sample_chat active [sample_message]) /\
  call (editMessage 10%Z 1 "hello" 7)
    (sample_chat active [set_isDeleted true sample_message])
  = (Throw MessageDeleted,
     sample_chat active [set_isDeleted true sample_message]).
Proof.
  split; [|split].
  - apply (C5_edit_failures (sample_chat active [sample_message]) 10%Z 2
             "hello" 7). reflexivity.
  - apply (C5_edit_failures (sample_chat active [sample_message]) 10%Z 1
             "hello" 8) with (m := sample_message); [reflexivity|].
    cbn. discriminate.
  - apply (C5_edit_failures
             (sample_chat active [set_isDeleted true sample_message]) 10%Z 1
             "hello" 7) with (m := set_isDeleted true sample_message);
      reflexivity.
Defined.

(** ** Deleting a message *)

(** C2, as stated, fails: a message deleted by its sender at time 10 and
    deleted again by its sender at time 20.  Both deletions are saved, and
    the second one replaces the deletedAt stamp of the first. *)
Lemma C2_second_delete_renews_deletedAt :
  exists c1 c2 m1 m2,
    call (deleteMessage 10%Z 1 7) (sample_chat active [sample_message])
    = (Return c1, c1) /\
    call (deleteMessage 20%Z 1 7) c1 = (Return c2, c2) /\
    id 1 (messages c1) = Some m1 /\
    id 1 (messages c2) = Some m2 /\
    deletedAt m1 = Some 10%Z /\
    deletedAt m2 = Some 20%Z /\
    m2 <> m1 /\
    c2 <> c1.
Proof.
  do 4 eexists.
  do 6 (split; [vm_compute; reflexivity|]).
  split; intros H.
  - apply (f_equal deletedAt) in H. discriminate H.
  - apply (f_equal lastActivity) in H. discriminate H.
Qed.

(** C2, amended.  A message deleted by its sender and deleted again by its
    sender: both deletions are saved; after each the content is the fixed
    tombstone string and isDeleted is true; deletedAt is the time of the
    latest deletion, and it is the only field of the message the second
    deletion changes (the conversation's lastActivity follows it). *)
Theorem C2_delete_twice (c : Chat) (now1 now2 : Date)
    (messageId userId : ObjectId) (m : Message) :
  id messageId (messages c) = Some m ->
  sender m = userId ->
  exists c1 c2 m1 m2,
    call (deleteMessage now1 messageId userId) c = (Return c1, c1) /\
    call (deleteMessage now2 messageId userId) c1 = (Return c2, c2) /\
    id messageId (messages c1) = Some m1 /\
    id messageId (messages c2) = Some m2 /\
    content m1 = tombstone /\ isDeleted m1 = true /\
    deletedAt m1 = Some now1 /\
    content m2 = tombstone /\ isDeleted m2 = true /\
    deletedAt m2 = Some now2 /\
    m2 = set_deletedAt (Some now2) m1 /\
    c2 = set_lastActivity now2
           (set_messages
              (update_id messageId (set_deletedAt (Some now2)) (messages c1))
              c1).
Proof.
  intros Hid Hs.
  pose (c1 := set_lastActivity now1
                (set_messages
                   (update_id messageId (delete_fields now1) (messages c)) c)).
  assert (Hid1 : id messageId (messages c1) = Some (delete_fields now1 m)).
  { unfold c1. cbn [messages set_lastActivity set_messages].
    rewrite id_update_id by reflexivity. rewrite Hid. reflexivity. }
  pose (c2 := set_lastActivity now2
                (set_messages
                   (update_id messageId (delete_fields now2) (messages c1))
                   c1)).
  exists c1, c2, (delete_fields now1 m),
    (delete_fields now2 (delete_fields now1 m)).
  split; [apply (deleteMessage_saved _ _ _ _ m Hid Hs)|].
  split; [apply (deleteMessage_saved _ _ _ _ _ Hid1 Hs)|].
  split; [exact Hid1|].
  split.
  { unfold c2. cbn [messages set_lastActivity set_messages].
    rewrite id_update_id by reflexivity. rewrite Hid1. reflexivity. }
  repeat (split; [reflexivity|]).
  unfold c2.
  rewrite (update_id_ext messageId (delete_fields now2)
             (set_deletedAt (Some now2)) (messages c1) _ Hid1);
    reflexivity.
Qed.

Lemma C2_delete_twice_witness :
  exists c1 c2 m1 m2,
    call (deleteMessage 10%Z 1 7) (sample_chat active [sample_message])
    = (Return c1, c1) /\
    call (deleteMessage 20%Z 1 7) c1 = (Return c2, c2) /\
    id 1 (messages c1) = Some m1 /\
    id 1 (messages c2) = Some m2 /\
    content m1 = tombstone /\ isDeleted m1 = true /\
    deletedAt m1 = Some 10%Z /\
    content m2 = tombstone /\ isDeleted m2 = true /\
    deletedAt m2 = Some 20%Z /\
    m2 = set_deletedAt (Some 20%Z) m1 /\
    c2 = set_lastActivity 20%Z
           (set_messages
              (update_id 1 (set_deletedAt (Some 20%Z)) (messages c1)) c1).
Proof.
  apply (C2_delete_twice (sample_chat active [sample_message]) 10%Z 20%Z 1 7
           sample_message); reflexivity.
Defined.

(** ** The status of the conversation and the edit and delete paths *)

Lemma editMessage_set_status (st : Status) (now : Date)
    (messageId : ObjectId) (newContent : string) (userId : ObjectId)
    (c : Chat) :
  call (editMessage now messageId newContent userId) (set_status st c)
  = (map_Completion (set_status st)
       (fst (call (editMessage now messageId newContent userId) c)),
     set_status st
       (snd (call (editMessage now messageId newContent userId) c))).
Proof.
  destruct (id messageId (messages c)) as [m|] eqn:Hid.
  - destruct (Nat.eq_dec (sender m) userId) as [Hs|Hs].
    + destruct (isDeleted m) eqn:Hd.
      * rewrite (editMessage_deleted _ _ _ _ c m Hid Hs Hd).
        apply (editMessage_deleted _ _ _ _ (set_status st c) m Hid Hs Hd).
      * rewrite (editMessage_runs _ _ _ _ c m Hid Hs Hd).
        rewrite (editMessage_runs _ _ _ _ (set_status st c) m Hid Hs Hd).
        destruct (validate_content (trim newContent)); reflexivity.
    + rewrite (editMessage_not_sender _ _ _ _ c m Hid Hs).
      apply (editMessage_not_sender _ _ _ _ (set_status st c) m Hid Hs).
  - rewrite (editMessage_not_found _ _ _ _ c Hid).
    apply (editMessage_not_found _ _ _ _ (set_status st c) Hid).
Qed.

Lemma deleteMessage_set_status (st : Status) (now : Date)
    (messageId userId : ObjectId) (c : Chat) :
  call (deleteMessage now messageId userId) (set_status st c)
  = (map_Completion (set_status st)
       (fst (call (deleteMessage now messageId userId) c)),
     set_status st (snd (call (deleteMessage now messageId userId) c))).
Proof.
  destruct (id messageId (messages c)) as [m|] eqn:Hid.
  - destruct (Nat.eq_dec (sender m) userId) as [Hs|Hs].
    + rewrite (deleteMessage_saved _ _ _ c m Hid Hs).
      apply (deleteMessage_saved _ _ _ (set_status st c) m Hid Hs).
    + rewrite (deleteMessage_not_sender _ _ _ c m Hid Hs).
      apply (deleteMessage_not_sender _ _ _ (set_status st c) m Hid Hs).
  - rewrite (deleteMessage_not_found _ _ _ c Hid).
    apply (deleteMessage_not_found _ _ _ (set_status st c) Hid).
Qed.

(** How [deleteMessage] ends: it throws one of its two errors and leaves the
    document, or it saves; its save is never rejected. *)
Lemma deleteMessage_ends (now : Date) (messageId userId : ObjectId)
    (c : Chat) :
  (exists saved,
     call (deleteMessage now messageId userId) c = (Return saved, saved)) \/
  call (deleteMessage now messageId userId) c = (Throw MessageNotFound, c) \/
  call (deleteMessage now messageId userId) c
  = (Throw NotAuthorizedToDelete, c).
Proof.
  destruct (id messageId (messages c)) as [m|] eqn:Hid.
  - destruct (Nat.eq_dec (sender m) userId) as [Hs|Hs].
    + left. eexists. apply (deleteMessage_saved _ _ _ c m Hid Hs).
    + right. right. apply (deleteMessage_not_sender _ _ _ c m Hid Hs).
  - right. left. apply (deleteMessage_not_found _ _ _ c Hid).
Qed.

Lemma deleteMessage_throws (now : Date) (messageId userId : ObjectId)
    (c c' : Chat) (e : Error) :
  call (deleteMessage now messageId userId) c = (Throw e, c') ->
  c' = c /\ (e = MessageNotFound \/ e = NotAuthorizedToDelete).
Proof.
  intros H.
  destruct (deleteMessage_ends now messageId userId c)
    as [[saved Hr]|[Hr|Hr]]; rewrite Hr in H.
  - discriminate.
  - injection H as <- <-. auto.
  - injection H as <- <-. auto.
Qed.

Lemma editMessage_throws (now : Date) (messageId : ObjectId)
    (newContent : string) (userId : ObjectId) (c c' : Chat) (e : Error) :
  call (editMessage now messageId newContent userId) c = (Throw e, c') ->
  c' = c /\
  (e = MessageNotFound \/ e = NotAuthorizedToEdit \/ e = MessageDeleted).
Proof.
  intros H.
  destruct (id messageId (messages c)) as [m|] eqn:Hid.
  - destruct (Nat.eq_dec (sender m) userId) as [Hs|Hs].
    + destruct (isDeleted m) eqn:Hd.
      * rewrite (editMessage_deleted _ _ _ _ _ m Hid Hs Hd) in H.
        injection H as <- <-. auto.
      * rewrite (editMessage_runs _ _ _ _ _ m Hid Hs Hd) in H.
        destruct (validate_content (trim newContent)); discriminate.
    + rewrite (editMessage_not_sender _ _ _ _ _ m Hid Hs) in H.
      injection H as <- <-. auto.
  - rewrite (editMessage_not_found _ _ _ _ _ Hid) in H.
    injection H as <- <-. auto.
Qed.

(** A rejected edit: the message is there, the requester has sent it, it is
    not deleted, and the trimmed text fails a validator. *)
Lemma editMessage_rejects (now : Date) (messageId : ObjectId)
    (newContent : string) (userId : ObjectId) (c c' : Chat) (e : Error) :
  call (editMessage now messageId newContent userId) c = (Reject e, c') ->
  exists m message,
    id messageId (messages c) = Some m /\ sender m = userId /\
    isDeleted m = false /\
    validate_content (trim newContent) = Some message /\
    e = ValidationError (index messageId (messages c)) message /\
    c' = set_messages
           (update_id messageId (edit_fields now newContent) (messages c)) c.
Proof.
  intros H.
  destruct (id messageId (messages c)) as [m|] eqn:Hid.
  - destruct (Nat.eq_dec (sender m) userId) as [Hs|Hs].
    + destruct (isDeleted m) eqn:Hd.
      * rewrite (editMessage_deleted _ _ _ _ _ m Hid Hs Hd) in H.
        discriminate.
      * rewrite (editMessage_runs _ _ _ _ _ m Hid Hs Hd) in H.
        destruct (validate_content (trim newContent)) as [message|] eqn:Hv;
          [|discriminate].
        injection H as <- <-. exists m, message. auto 6.
    + rewrite (editMessage_not_sender _ _ _ _ _ m Hid Hs) in H.
      discriminate.
  - rewrite (editMessage_not_found _ _ _ _ _ Hid) in H. discriminate.
Qed.

(** C9, as stated, fails in its list of failures: on a closed conversation
    the sender of a message that is not deleted edits it to a blank text.
    The edit fails, with none of the three errors of the claim: the save is
    rejected by the validation of the content, and the handler answers the
    sender with the message of that error and writes nothing. *)
Lemma C9_blank_edit_is_rejected :
  exists e built message,
    status (sample_chat closed [sample_message]) = closed /\
    id 1 (messages (sample_chat closed [sample_message]))
    = Some sample_message /\
    sender sample_message = 7 /\ isDeleted sample_message = false /\
    call (editMessage 10%Z 1 "   " 7) (sample_chat closed [sample_message])
    = (Reject e, built) /\
    e = ValidationError 0 "Message content is required" /\
    e = Error_ message /\
    e <> MessageNotFound /\ e <> NotAuthorizedToEdit /\ e <> MessageDeleted /\
    edit_message 7 10%Z 50 1 "   " [sample_chat closed [sample_message]]
    = ([sample_chat closed [sample_message]], [socket_emit (error message)]).
Proof.
  do 3 eexists.
  do 7 (split; [vm_compute; reflexivity|]).
  split; [discriminate|]. split; [discriminate|]. split; [discriminate|].
  vm_compute. reflexivity.
Qed.

(** C9, amended.  Neither method reads the status.  On a closed or archived
    conversation the sender of a message still deletes it, and still edits
    it when it is not tombstoned and the new text, trimmed, is not empty and
    has at most 1000 characters: the method saves the message as edited or
    as tombstoned and the handler broadcasts.  The two methods throw only
    "Message not found", "Not authorized ..." and, for an edit, "Cannot edit
    deleted message"; the save of a deletion is never rejected, and the save
    of an edit is rejected only by the validation of a text that, trimmed,
    is empty or longer than 1000 characters.  Run on the same conversation
    under any other status, either method completes the same way and leaves
    the same document, status apart. *)
Theorem C9_edit_delete_ignore_status (c : Chat) (now : Date)
    (messageId : ObjectId) (newContent : string) (userId : ObjectId) :
  status c = closed \/ status c = archived ->
  (forall m, id messageId (messages c) = Some m -> sender m = userId ->
   isDeleted m = false ->
   trim newContent <> "" -> String.length (trim newContent) <= 1000 ->
   exists saved m',
     call (editMessage now messageId newContent userId) c
     = (Return saved, saved) /\
     status saved = status c /\
     id messageId (messages saved) = Some m' /\
     content m' = trim newContent /\
     isEdited m' = true /\
     editedAt m' = Some now /\
     forall db chatId, findById chatId db = Some c ->
       edit_message userId now chatId messageId newContent db
       = (write saved db,
          [io_to_emit (chat_ chatId)
             (message_edited chatId messageId newContent now)])) /\
  (forall m, id messageId (messages c) = Some m -> sender m = userId ->
   exists saved m',
     call (deleteMessage now messageId userId) c = (Return saved, saved) /\
     status saved = status c /\
     id messageId (messages saved) = Some m' /\
     content m' = tombstone /\
     isDeleted m' = true /\
     deletedAt m' = Some now /\
     forall db chatId, findById chatId db = Some c ->
       delete_message userId now chatId messageId db
       = (write saved db,
          [io_to_emit (chat_ chatId)
             (message_deleted chatId messageId now)])) /\
  (forall e c',
   call (editMessage now messageId newContent userId) c = (Throw e, c') ->
   e = MessageNotFound \/ e = NotAuthorizedToEdit \/ e = MessageDeleted) /\
  (forall e c',
   call (editMessage now messageId newContent userId) c = (Reject e, c') ->
   (trim newContent = "" \/ 1000 < String.length (trim newContent)) /\
   exists message,
     validate_content (trim newContent) = Some message /\
     e = ValidationError (index messageId (messages c)) message) /\
  (forall e c',
   call (deleteMessage now messageId userId) c = (Throw e, c') ->
   e = MessageNotFound \/ e = NotAuthorizedToDelete) /\
  (forall e c',
   call (deleteMessage now messageId userId) c = (Reject e, c') -> False) /\
  (forall st,
   call (editMessage now messageId newContent userId) (set_status st c)
   = (map_Completion (set_status st)
        (fst (call (editMessage now messageId newContent userId) c)),
      set_status st
        (snd (call (editMessage now messageId newContent userId) c)))) /\
  (forall st,
   call (deleteMessage now messageId userId) (set_status st c)
   = (map_Completion (set_status st)
        (fst (call (deleteMessage now messageId userId) c)),
      set_status st (snd (call (deleteMessage now messageId userId) c)))).
Proof.
  intros _.
  split.
  { intros m Hid Hs Hd Hne Hlen.
    assert (Hv : validate_content (trim newContent) = None).
    { apply validate_content_None. auto. }
    eexists. exists (edit_fields now newContent m).
    split; [apply (editMessage_saved _ _ _ _ _ m Hid Hs Hd Hv)|].
    split; [reflexivity|].
    split.
    { cbn [messages set_lastActivity set_messages].
      rewrite id_update_id by apply msg_id_edit_fields.
      rewrite Hid. reflexivity. }
    do 3 (split; [reflexivity|]).
    intros db chatId Hfind. unfold edit_message.
    rewrite Hfind, (editMessage_saved _ _ _ _ _ m Hid Hs Hd Hv).
    reflexivity. }
  split.
  { intros m Hid Hs. eexists. exists (delete_fields now m).
    split; [apply (deleteMessage_saved _ _ _ _ m Hid Hs)|].
    split; [reflexivity|].
    split.
    { cbn [messages set_lastActivity set_messages].
      rewrite id_update_id by reflexivity. rewrite Hid. reflexivity. }
    do 3 (split; [reflexivity|]).
    intros db chatId Hfind. unfold delete_message.
    rewrite Hfind, (deleteMessage_saved _ _ _ _ m Hid Hs). reflexivity. }
  split; [intros e c' H; apply (editMessage_throws _ _ _ _ _ _ _ H)|].
  split.
  { intros e c' H.
    destruct (editMessage_rejects _ _ _ _ _ _ _ H)
      as (m & message & _ & _ & _ & Hv & He & _).
    split; [|exists message; auto].
    destruct (String.eqb (trim newContent) "") eqn:E.
    - left. apply String.eqb_eq, E.
    - right. apply String.eqb_neq in E.
      destruct (Nat.ltb 1000 (String.length (trim newContent))) eqn:L.
      + apply Nat.ltb_lt, L.
      + apply Nat.ltb_ge in L.
        assert (Hn : validate_content (trim newContent) = None).
        { apply validate_content_None. auto. }
        congruence. }
  split; [intros e c' H; apply (deleteMessage_throws _ _ _ _ _ _ H)|].
  split.
  { intros e c' H.
    destruct (deleteMessage_ends now messageId userId c)
      as [[saved Hr]|[Hr|Hr]]; rewrite Hr in H; discriminate. }
  split; intros st.
  - apply editMessage_set_status.
  - apply deleteMessage_set_status.
Qed.

Lemma C9_edit_delete_ignore_status_witness :
  (exists saved m',
     call (editMessage 10%Z 1 "found it " 7)
       (sample_chat closed [sample_message])
     = (Return saved, saved) /\
     status saved = closed /\
     id 1 (messages saved) = Some m' /\
     content m' = "found it" /\
     isEdited m' = true) /\
  (exists saved m',
     call (deleteMessage 10%Z 1 7) (sample_chat archived [sample_message])
     = (Return saved, saved) /\
     status saved = archived /\
     id 1 (messages saved) = Some m' /\
     content m' = tombstone /\
     isDeleted m' = true).
Proof.
  split.
  - destruct (C9_edit_delete_ignore_status
                (sample_chat closed [sample_message]) 10%Z 1 "found it " 7
                (or_introl eq_refl))
      as (He & _).
    destruct (He sample_message eq_refl eq_refl eq_refl)
      as (saved & m' & H1 & H2 & H3 & H4 & H5 & _).
    + discriminate.
    + apply Nat.leb_le. reflexivity.
    + exists saved, m'. auto.
  - destruct (C9_edit_delete_ignore_status
                (sample_chat archived [sample_message]) 10%Z 1 "found it" 7
                (or_intror eq_refl))
      as (_ & Hd & _).
    destruct (Hd sample_message eq_refl eq_refl)
      as (saved & m' & H1 & H2 & H3 & H4 & H5 & _).
    exists saved, m'. auto.
Defined.

(** ** Sending a message *)

(** [addMessage] never throws.  The document it builds, which it saves when
    the trimmed content passes the validators; otherwise the save is
    rejected. *)
Lemma addMessage_runs (now : Date) (newId senderId : ObjectId)
    (text_ : string) (ty : MessageType) (att : option Attachment)
    (c : Chat) :
  let message :=
    {| msg_id := newId; sender := senderId; content := trim text_;
       messageType := ty; attachment := att;
       isRead := false; readAt := None;
       isEdited := false; editedAt := None; originalContent := None;
       isDeleted := false; deletedAt := None |} in
  let saved :=
    set_autoCloseAt (now + week)%Z
      (set_lastActivity now
         (set_lastMessage
            {| lm_content := Some text_; lm_sender := Some senderId;
               lm_timestamp := Some now; lm_messageType := ty |}
            (set_messages (messages c ++ [message]) c))) in
  call (addMessage now newId senderId text_ ty att) c
  = (match validate_content (trim text_) with
     | None => Return saved
     | Some message_ =>
         Reject (ValidationError (List.length (messages c)) message_)
     end,
     saved).
Proof.
  cbv zeta. unfold call, addMessage, bind, messages_push, assign.
  cbn [this modified_messages modified_content app content set_content].
  erewrite save_one_content
    by (cbn [messages set_autoCloseAt set_lastActivity set_lastMessage
               set_messages]; apply nth_error_snoc).
  cbn [content set_content].
  destruct (validate_content (trim text_)); reflexivity.
Qed.


(** [send_message] for an active participant: the conversation is written
    when [addMessage] saves it, and in either case the sender is answered
    with the same error and nothing is broadcast. *)
Lemma send_message_runs (db : Store) (me : ObjectId) (now : Date)
    (newId chatId : ObjectId) (text_ : string) (ty : option MessageType)
    (att : option Attachment) (chat : Chat) :
  findById chatId db = Some chat ->
  isParticipant me chat = true ->
  send_message me now newId chatId text_ ty att db
  = (match
       fst (call (addMessage now newId me text_
                    match ty with Some t => t | None => text end att) chat)
     with
     | Return saved => write saved db
     | _ => db
     end,
     [socket_emit (error "Failed to send message")]).
Proof.
  intros Hfind Hp. unfold send_message. rewrite Hfind, Hp. cbn [negb].
  rewrite addMessage_runs. cbn [fst].
  destruct (validate_content (trim text_)); [reflexivity|].
  unfold last_message.
  cbn [messages set_autoCloseAt set_lastActivity set_lastMessage
         set_messages].
  rewrite rev_app_distr. reflexivity.
Qed.




(** ** Closing a conversation *)

(** C3, as stated, fails: a conversation closed by user 7 at time 10 and
    closed again by user 8 at time 20.  Neither call raises an error, and
    the second one replaces both resolvedAt and resolvedBy. *)
Lemma C3_second_close_renews_resolution :
  exists c1 c2,
    call (closeChat 10%Z (Some 7)) (sample_chat active []) = (Return c1, c1) /\
    call (closeChat 20%Z (Some 8)) c1 = (Return c2, c2) /\
    status c1 = closed /\
    resolvedAt c1 = Some 10%Z /\ resolvedBy c1 = Some 7 /\
    resolvedAt c2 = Some 20%Z /\ resolvedBy c2 = Some 8 /\
    c2 <> c1.
Proof.
  do 2 eexists.
  repeat (split; [reflexivity|]).
  intros H. apply (f_equal resolvedAt) in H. discriminate H.
Qed.

(** C3, amended.  [closeChat] never raises an error; it sets status to
    closed, isResolved to true, resolvedAt to now and, when a closer is
    given, resolvedBy to the closer.  Closing a conversation again raises no
    error and keeps status and isResolved, but sets resolvedAt to the time of
    the second call and resolvedBy to its closer when it names one; it
    changes no other field. *)
Theorem C3_close_twice (c : Chat) (now1 now2 : Date)
    (closedBy1 closedBy2 : option ObjectId) :
  exists c1 c2,
    call (closeChat now1 closedBy1) c = (Return c1, c1) /\
    status c1 = closed /\
    isResolved c1 = true /\
    resolvedAt c1 = Some now1 /\
    resolvedBy c1
    = match closedBy1 with Some u => Some u | None => resolvedBy c end /\
    call (closeChat now2 closedBy2) c1 = (Return c2, c2) /\
    status c2 = closed /\
    isResolved c2 = true /\
    resolvedAt c2 = Some now2 /\
    resolvedBy c2
    = match closedBy2 with Some u => Some u | None => resolvedBy c1 end /\
    c2 = set_resolvedBy
           match closedBy2 with Some u => Some u | None => resolvedBy c1 end
           (set_resolvedAt (Some now2) c1).
Proof.
  destruct closedBy1, closedBy2; do 2 eexists; repeat split.
Qed.

(** ** Reading messages *)

Lemma set_messages_same (c : Chat) : set_messages (messages c) c = c.
Proof. destruct c; reflexivity. Qed.

Lemma forEach_marks (now : Date) (userId : ObjectId) (ids : list ObjectId) :
  forall (c : Chat) (b : bool) (paths : list nat),
    forEach ids
      (fun messageId =>
         message <- messages_id messageId ;;
         match message with
         | Some message =>
             if negb (Nat.eqb (sender message) userId)
             then assign_message messageId (set_isRead true) ;;
                  assign_message messageId (set_readAt (Some now))
             else ret tt
         | None => ret tt
         end)
      {| this := c; modified_messages := b; modified_content := paths |}
    = (Return tt,
       {| this := set_messages (marked_ids now userId ids (messages c)) c;
          modified_messages :=
            b || existsb (sent_by_other userId (messages c)) ids;
          modified_content := paths |}).
Proof.
  induction ids as [|messageId ids IH]; intros c b paths.
  - cbn. rewrite set_messages_same, orb_false_r. reflexivity.
  - cbn [forEach marked_ids existsb].
    unfold bind at 1. unfold bind at 1.
    unfold messages_id, read. cbn [this].
    assert (Hhit : sent_by_other userId (messages c) messageId
                   = match id messageId (messages c) with
                     | Some m => negb (Nat.eqb (sender m) userId)
                     | None => false
                     end) by reflexivity.
    destruct (id messageId (messages c)) as [m|] eqn:Hid.
    + destruct (negb (Nat.eqb (sender m) userId)) eqn:Hs; rewrite Hhit.
      * unfold bind at 1, assign_message.
        cbn [this messages set_messages modified_content].
        rewrite IH. cbn [messages set_messages].
        rewrite update_id_update_id by reflexivity.
        cbn [orb]. rewrite orb_true_r. reflexivity.
      * unfold ret at 1. rewrite IH. reflexivity.
    + unfold ret at 1. rewrite IH, Hhit. reflexivity.
Qed.

(** [markMessagesAsRead] never throws; what it saves. *)
Lemma markMessagesAsRead_saved (now : Date) (userId : ObjectId)
    (messageIds : option (list ObjectId)) (c : Chat) :
  let seen :=
    set_participants
      (update_participant userId (set_lastSeen now) (participants c))
      (set_messages (marked now userId messageIds (messages c)) c) in
  let saved :=
    if marks_some userId messageIds c then set_lastActivity now seen
    else seen in
  call (markMessagesAsRead now userId messageIds) c = (Return saved, saved).
Proof.
  destruct messageIds as [ids|]; unfold call, markMessagesAsRead.
  - unfold bind at 1. rewrite forEach_marks.
    cbn [orb marks_some marked].
    destruct (existsb (sent_by_other userId (messages c)) ids);
      reflexivity.
  - unfold bind at 1, messages_forEach_if.
    cbn [orb marks_some marked this modified_messages].
    fold (unread_by_other userId).
    destruct (existsb (unread_by_other userId) (messages c));
      reflexivity.
Qed.

Lemma unread_for_read_fields (now : Date) (userId : ObjectId) (m : Message) :
  unread_for userId (read_fields now m) = false.
Proof. reflexivity. Qed.

Lemma unread_for_unread_by_other (userId : ObjectId) (m : Message) :
  unread_for userId m = true -> unread_by_other userId m = true.
Proof.
  unfold unread_for, unread_by_other. intros H.
  apply andb_true_iff in H. tauto.
Qed.

Lemma unread_marked_all (now : Date) (userId : ObjectId) (ms : list Message) :
  filter (unread_for userId) (marked now userId None ms) = [].
Proof.
  induction ms as [|m ms IH]; [reflexivity|].
  cbn [marked map filter] in *.
  destruct (unread_by_other userId m) eqn:E.
  - rewrite unread_for_read_fields. exact IH.
  - destruct (unread_for userId m) eqn:U; [|exact IH].
    apply unread_for_unread_by_other in U. congruence.
Qed.

Lemma unread_update_id_le (now : Date) (userId messageId : ObjectId)
    (ms : list Message) :
  List.length
    (filter (unread_for userId) (update_id messageId (read_fields now) ms))
  <= List.length (filter (unread_for userId) ms).
Proof.
  induction ms as [|m ms IH]; [apply Nat.le_refl|].
  cbn [update_id].
  destruct (Nat.eqb (msg_id m) messageId).
  - cbn [filter]. rewrite unread_for_read_fields.
    destruct (unread_for userId m); cbn [List.length]; lia.
  - cbn [filter].
    destruct (unread_for userId m); cbn [List.length]; lia.
Qed.

Lemma unread_marked_ids_le (now : Date) (userId : ObjectId)
    (ids : list ObjectId) :
  forall ms,
    List.length (filter (unread_for userId) (marked_ids now userId ids ms))
    <= List.length (filter (unread_for userId) ms).
Proof.
  induction ids as [|messageId ids IH]; intros ms; [apply Nat.le_refl|].
  cbn [marked_ids].
  destruct (sent_by_other userId ms messageId).
  - eapply Nat.le_trans; [apply IH|apply unread_update_id_le].
  - apply IH.
Qed.

Lemma messages_markMessagesAsRead (now : Date) (userId : ObjectId)
    (messageIds : option (list ObjectId)) (c : Chat) :
  exists saved,
    call (markMessagesAsRead now userId messageIds) c = (Return saved, saved) /\
    messages saved = marked now userId messageIds (messages c) /\
    autoCloseAt saved = autoCloseAt c /\
    lastActivity saved
    = (if marks_some userId messageIds c then now else lastActivity c).
Proof.
  eexists. split; [apply markMessagesAsRead_saved|].
  destruct (marks_some userId messageIds c); repeat split.
Qed.

(** Over the loop on listed ids the count goes down when a listed id is that
    of a message that counts, and stays when none is. *)
Lemma unread_marked_ids_lt (now : Date) (userId : ObjectId)
    (ids : list ObjectId) :
  forall ms,
    (exists messageId m,
       In messageId ids /\ id messageId ms = Some m /\
       unread_for userId m = true) ->
    List.length (filter (unread_for userId) (marked_ids now userId ids ms))
    < List.length (filter (unread_for userId) ms).
Proof.
  induction ids as [|i0 ids IH]; intros ms (h & m & Hin & Hid & Hu);
    [destruct Hin|].
  cbn [marked_ids].
  destruct (Nat.eq_dec i0 h) as [->|Hne].
  - assert (Hhit : sent_by_other userId ms h = true).
    { unfold sent_by_other. rewrite Hid. unfold unread_for in Hu.
      apply andb_true_iff in Hu. destruct Hu as [Hu _].
      apply andb_true_iff in Hu. tauto. }
    rewrite Hhit.
    assert (Hc := count_update_id (unread_for userId) h (read_fields now)
                    ms m Hid).
    rewrite Hu, unread_for_read_fields in Hc.
    assert (Hle := unread_marked_ids_le now userId ids
                     (update_id h (read_fields now) ms)).
    lia.
  - assert (Hin' : In h ids) by (destruct Hin; [congruence|assumption]).
    destruct (sent_by_other userId ms i0).
    + eapply Nat.lt_le_trans; [|apply (unread_update_id_le now userId i0)].
      apply IH. exists h, m. split; [exact Hin'|]. split; [|exact Hu].
      rewrite id_update_id_other by (reflexivity || auto). exact Hid.
    + apply IH. exists h, m. auto.
Qed.

Lemma unread_marked_ids_eq (now : Date) (userId : ObjectId)
    (ids : list ObjectId) :
  forall ms,
    (forall messageId m,
       In messageId ids -> id messageId ms = Some m ->
       unread_for userId m = false) ->
    List.length (filter (unread_for userId) (marked_ids now userId ids ms))
    = List.length (filter (unread_for userId) ms).
Proof.
  induction ids as [|i0 ids IH]; intros ms Hnone; [reflexivity|].
  cbn [marked_ids].
  destruct (sent_by_other userId ms i0) eqn:Hhit.
  - unfold sent_by_other in Hhit.
    destruct (id i0 ms) as [m0|] eqn:Hid0; [|discriminate].
    assert (Hc := count_update_id (unread_for userId) i0 (read_fields now)
                    ms m0 Hid0).
    rewrite (Hnone i0 m0 (or_introl eq_refl) Hid0) in Hc.
    rewrite unread_for_read_fields in Hc.
    rewrite IH; [lia|].
    intros h m Hin Hid.
    destruct (Nat.eq_dec h i0) as [->|Hne].
    + rewrite id_update_id, Hid0 in Hid by reflexivity.
      injection Hid as <-. apply unread_for_read_fields.
    + rewrite id_update_id_other in Hid by (reflexivity || auto).
      apply (Hnone h m (or_intror Hin) Hid).
  - apply IH. intros h m Hin Hid. apply (Hnone h m (or_intror Hin) Hid).
Qed.

(** C8, as stated, fails: the count does not strictly decrease when there is
    nothing to read (a conversation without messages: 0 before and after),
    nor when the call lists no message (an empty array of ids is not an
    omitted argument: user 8 keeps one unread message). *)
Lemma C8_unread_count_need_not_decrease :
  exists saved saved',
    getUnreadCount 8 (sample_chat active []) = 0 /\
    call (markMessagesAsRead 10%Z 8 None) (sample_chat active [])
    = (Return saved, saved) /\
    getUnreadCount 8 saved = 0 /\
    getUnreadCount 8 (sample_chat active [sample_message]) = 1 /\
    call (markMessagesAsRead 10%Z 8 (Some []))
      (sample_chat active [sample_message])
    = (Return saved', saved') /\
    getUnreadCount 8 saved' = 1.
Proof.
  do 2 eexists.
  do 5 (split; [vm_compute; reflexivity|]).
  vm_compute. reflexivity.
Qed.

(** C8, amended.  The unread count of a principal is the number of messages
    that are not deleted, not authored by the principal and not read; the
    principal's own messages never count.  [markMessagesAsRead] for that
    principal is always saved and never increases the count.  Called without
    message ids it leaves the count at zero, so that the count strictly
    decreases whenever it was positive.  Called with ids, the count strictly
    decreases when one of the ids is that of a message that counted (not
    read, not deleted, sent by someone else), and it stays as it was when
    none of the ids is. *)
Theorem C8_unread_count (c : Chat) (userId : ObjectId) (now : Date)
    (messageIds : option (list ObjectId)) :
  getUnreadCount userId c
  = List.length
      (filter
         (fun m =>
            negb (isDeleted m) && negb (Nat.eqb (sender m) userId) &&
            negb (isRead m))
         (messages c)) /\
  getUnreadCount userId c
  = getUnreadCount userId
      (set_messages
         (filter (fun m => negb (Nat.eqb (sender m) userId)) (messages c)) c) /\
  (exists saved,
     call (markMessagesAsRead now userId messageIds) c = (Return saved, saved) /\
     getUnreadCount userId saved <= getUnreadCount userId c /\
     match messageIds with
     | None =>
         getUnreadCount userId saved = 0 /\
         (0 < getUnreadCount userId c ->
          getUnreadCount userId saved < getUnreadCount userId c)
     | Some ids =>
         ((exists messageId m,
             In messageId ids /\ id messageId (messages c) = Some m /\
             isRead m = false /\ isDeleted m = false /\ sender m <> userId) ->
          getUnreadCount userId saved < getUnreadCount userId c) /\
         ((forall messageId m,
             In messageId ids -> id messageId (messages c) = Some m ->
             isRead m = true \/ isDeleted m = true \/ sender m = userId) ->
          getUnreadCount userId saved = getUnreadCount userId c)
     end).
Proof.
  split.
  { unfold getUnreadCount. f_equal. apply filter_ext. intros m.
    destruct (isRead m), (Nat.eqb (sender m) userId), (isDeleted m);
      reflexivity. }
  split.
  { unfold getUnreadCount. cbn [messages set_messages]. f_equal.
    induction (messages c) as [|m ms IH]; [reflexivity|].
    cbn [filter].
    destruct (Nat.eqb (sender m) userId) eqn:E; cbn [negb].
    - rewrite andb_false_r. cbn [andb]. exact IH.
    - cbn [filter]. rewrite E. cbn [negb].
      destruct (negb (isRead m) && true && negb (isDeleted m));
        rewrite IH; reflexivity. }
  destruct (messages_markMessagesAsRead now userId messageIds c)
    as (saved & Hcall & Hms & _).
  exists saved. split; [exact Hcall|].
  unfold getUnreadCount. fold (unread_for userId). rewrite Hms.
  destruct messageIds as [ids|]; cbn [marked].
  - split; [apply unread_marked_ids_le|].
    split.
    + intros (h & m & Hin & Hid & Hr & Hd & Hs).
      apply unread_marked_ids_lt. exists h, m.
      split; [exact Hin|]. split; [exact Hid|].
      unfold unread_for. apply Nat.eqb_neq in Hs. rewrite Hr, Hd, Hs.
      reflexivity.
    + intros Hnone. apply unread_marked_ids_eq.
      intros h m Hin Hid. unfold unread_for.
      destruct (Hnone h m Hin Hid) as [Hr|[Hd|Hs]].
      * rewrite Hr. reflexivity.
      * rewrite Hd. apply andb_false_r.
      * apply Nat.eqb_eq in Hs. rewrite Hs. cbn [negb].
        rewrite andb_false_r. reflexivity.
  - change (map
              (fun m =>
                 if unread_by_other userId m then read_fields now m else m)
              (messages c))
      with (marked now userId None (messages c)).
    rewrite unread_marked_all. cbn [List.length].
    split; [apply Nat.le_0_l|]. split; [reflexivity|auto].
Qed.

(** ** lastActivity and autoCloseAt *)

Lemma editMessage_returns (now : Date) (messageId : ObjectId)
    (newContent : string) (userId : ObjectId) (c saved c' : Chat) :
  call (editMessage now messageId newContent userId) c = (Return saved, c') ->
  saved
  = set_lastActivity now
      (set_messages
         (update_id messageId (edit_fields now newContent) (messages c)) c) /\
  c' = saved.
Proof.
  intros H.
  destruct (id messageId (messages c)) as [m|] eqn:Hid.
  - destruct (Nat.eq_dec (sender m) userId) as [Hs|Hs].
    + destruct (isDeleted m) eqn:Hd.
      * rewrite (editMessage_deleted _ _ _ _ _ m Hid Hs Hd) in H.
        discriminate.
      * rewrite (editMessage_runs _ _ _ _ _ m Hid Hs Hd) in H.
        destruct (validate_content (trim newContent)); [discriminate|].
        injection H as <- <-. auto.
    + rewrite (editMessage_not_sender _ _ _ _ _ m Hid Hs) in H.
      discriminate.
  - rewrite (editMessage_not_found _ _ _ _ _ Hid) in H. discriminate.
Qed.

Lemma deleteMessage_returns (now : Date) (messageId userId : ObjectId)
    (c saved c' : Chat) :
  call (deleteMessage now messageId userId) c = (Return saved, c') ->
  saved
  = set_lastActivity now
      (set_messages
         (update_id messageId (delete_fields now) (messages c)) c) /\
  c' = saved.
Proof.
  intros H.
  destruct (id messageId (messages c)) as [m|] eqn:Hid.
  - destruct (Nat.eq_dec (sender m) userId) as [Hs|Hs].
    + rewrite (deleteMessage_saved _ _ _ _ m Hid Hs) in H.
      injection H as <- <-. auto.
    + rewrite (deleteMessage_not_sender _ _ _ _ m Hid Hs) in H.
      discriminate.
  - rewrite (deleteMessage_not_found _ _ _ _ Hid) in H. discriminate.
Qed.

(** The hook is what renews lastActivity: it does so exactly when
    [messages] has been modified. *)
Lemma pre_save_lastActivity (now : Date) (d : Doc) :
  lastActivity (this (snd (pre_save now d)))
  = (if modified_messages d then now else lastActivity (this d)).
Proof. unfold pre_save. destruct (modified_messages d); reflexivity. Qed.

(** C10.  A saved edit and a saved deletion set lastActivity to the current
    time and leave autoCloseAt as it was; so does [markMessagesAsRead] when
    it assigns to at least one message, and when it assigns to none it leaves
    lastActivity as well; [addMessage] sets lastActivity to the current time
    and is the only method that moves autoCloseAt (to the current time plus
    seven days), in the document it saves when the content passes the
    validation and that is not written otherwise: closing the conversation
    and adding or removing a participant leave both stamps alone. *)
Theorem C10_lastActivity_and_autoCloseAt (c : Chat) (now : Date) :
  (forall messageId newContent userId saved c',
   call (editMessage now messageId newContent userId) c = (Return saved, c') ->
   lastActivity saved = now /\ autoCloseAt saved = autoCloseAt c) /\
  (forall messageId userId saved c',
   call (deleteMessage now messageId userId) c = (Return saved, c') ->
   lastActivity saved = now /\ autoCloseAt saved = autoCloseAt c) /\
  (forall userId messageIds,
   exists saved,
     call (markMessagesAsRead now userId messageIds) c = (Return saved, saved) /\
     autoCloseAt saved = autoCloseAt c /\
     lastActivity saved
     = (if marks_some userId messageIds c then now else lastActivity c)) /\
  (forall newId senderId text_ ty att,
   exists saved,
     call (addMessage now newId senderId text_ ty att) c
     = (match validate_content (trim text_) with
        | None => Return saved
        | Some message =>
            Reject (ValidationError (List.length (messages c)) message)
        end,
        saved) /\
     lastActivity saved = now /\
     autoCloseAt saved = (now + week)%Z) /\
  (forall closedBy,
   exists saved,
     call (closeChat now closedBy) c = (Return saved, saved) /\
     lastActivity saved = lastActivity c /\
     autoCloseAt saved = autoCloseAt c) /\
  (forall userId,
   exists saved,
     call (addParticipant now userId) c = (Return saved, saved) /\
     lastActivity saved = lastActivity c /\
     autoCloseAt saved = autoCloseAt c) /\
  (forall userId,
   exists saved,
     call (removeParticipant now userId) c = (Return saved, saved) /\
     lastActivity saved = lastActivity c /\
     autoCloseAt saved = autoCloseAt c).
Proof.
  split.
  { intros messageId newContent userId saved c' H.
    apply editMessage_returns in H. destruct H as [-> _]. split; reflexivity. }
  split.
  { intros messageId userId saved c' H.
    apply deleteMessage_returns in H. destruct H as [-> _].
    split; reflexivity. }
  split.
  { intros userId messageIds.
    destruct (messages_markMessagesAsRead now userId messageIds c)
      as (saved & Hcall & _ & Ha & Hl).
    exists saved. auto. }
  split.
  { intros newId senderId text_ ty att. eexists.
    split; [apply addMessage_runs|]. split; reflexivity. }
  split.
  { intros [closedBy|]; eexists; repeat split. }
  split.
  { intros userId. unfold call, addParticipant, bind, read. cbn [this].
    destruct (find (fun p => Nat.eqb (user p) userId) (participants c));
      eexists; repeat split. }
  intros userId. eexists. repeat split.
Qed.

Lemma C10_lastActivity_and_autoCloseAt_witness :
  exists edited deleted seen,
    call (editMessage 10%Z 1 "found it" 7)
      (sample_chat active [sample_message])
    = (Return edited, edited) /\
    (lastActivity edited = 10%Z /\ autoCloseAt edited = (5 + week)%Z) /\
    call (deleteMessage 10%Z 1 7) (sample_chat active [sample_message])
    = (Return deleted, deleted) /\
    (lastActivity deleted = 10%Z /\ autoCloseAt deleted = (5 + week)%Z) /\
    call (markMessagesAsRead 10%Z 8 None)
      (sample_chat active [sample_message])
    = (Return seen, seen) /\
    autoCloseAt seen = (5 + week)%Z /\
    lastActivity seen = 10%Z.
Proof.
  do 2 eexists.
  destruct (C10_lastActivity_and_autoCloseAt
              (sample_chat active [sample_message]) 10%Z)
    as (He & Hd & Hm & _).
  destruct (Hm 8 None) as (seen & Hcall & Ha & Hl).
  exists seen.
  split; [vm_compute; reflexivity|].
  split; [eapply (He 1 "found it" 7); vm_compute; reflexivity|].
  split; [vm_compute; reflexivity|].
  split; [eapply (Hd 1 7); vm_compute; reflexivity|].
  split; [exact Hcall|].
  split; [exact Ha|exact Hl].
Defined.

(** ** The conversations of a principal *)

Lemma timestamp_geb_total (a b : option Date) :
  timestamp_geb a b = false -> timestamp_geb b a = true.
Proof.
  destruct a as [x|], b as [y|]; cbn; try congruence.
  intros H. apply Z.leb_gt in H. apply Z.leb_le. lia.
Qed.

Lemma insert_sorted_Permutation (c : Chat) (l : list Chat) :
  Permutation (insert_sorted c l) (c :: l).
Proof.
  induction l as [|d l IH]; cbn [insert_sorted]; [apply Permutation_refl|].
  destruct (timestamp_geb _ _); [apply Permutation_refl|].
  eapply perm_trans; [apply perm_skip, IH|apply perm_swap].
Qed.

Lemma sort_Permutation (l : list Chat) :
  Permutation (sort_by_lastMessage_timestamp_desc l) l.
Proof.
  unfold sort_by_lastMessage_timestamp_desc.
  induction l as [|c l IH]; cbn [fold_right]; [apply perm_nil|].
  eapply perm_trans; [apply insert_sorted_Permutation|].
  apply perm_skip, IH.
Qed.

Lemma insert_sorted_Sorted (c : Chat) (l : list Chat) :
  Sorted not_before l -> Sorted not_before (insert_sorted c l).
Proof.
  induction l as [|d l IH]; intros Hs; cbn [insert_sorted].
  - constructor; constructor.
  - destruct (timestamp_geb (lm_timestamp (lastMessage c))
                (lm_timestamp (lastMessage d))) eqn:E.
    + constructor; [exact Hs|]. constructor. exact E.
    + inversion Hs as [|? ? Hs' Hhd]; subst.
      constructor; [apply IH, Hs'|].
      destruct l as [|e l]; cbn [insert_sorted].
      * constructor. apply timestamp_geb_total, E.
      * destruct (timestamp_geb (lm_timestamp (lastMessage c))
                    (lm_timestamp (lastMessage e))).
        -- constructor. apply timestamp_geb_total, E.
        -- inversion Hhd; subst. constructor. assumption.
Qed.

Lemma sort_Sorted (l : list Chat) :
  Sorted not_before (sort_by_lastMessage_timestamp_desc l).
Proof.
  unfold sort_by_lastMessage_timestamp_desc.
  induction l as [|c l IH]; cbn [fold_right]; [constructor|].
  apply insert_sorted_Sorted, IH.
Qed.

(** What [findUserChats] returns: the stored conversations of the asked
    status in which the principal has an entry and some entry (the
    principal's or another's) is active, later lastMessage stamps first. *)
Lemma findUserChats_returns (userId : ObjectId) (st : Status) (db : Store) :
  Sorted not_before (findUserChats userId st db) /\
  forall c,
    In c (findUserChats userId st db) <->
    In c db /\ status c = st /\
    (exists p, In p (participants c) /\ user p = userId) /\
    (exists p, In p (participants c) /\ isActive p = true).
Proof.
  split; [apply sort_Sorted|].
  intros c. unfold findUserChats.
  assert (Hperm := sort_Permutation
                     (filter (matches_findUserChats userId st) db)).
  assert (Hm : matches_findUserChats userId st c = true <->
               status c = st /\
               (exists p, In p (participants c) /\ user p = userId) /\
               (exists p, In p (participants c) /\ isActive p = true)).
  { unfold matches_findUserChats.
    rewrite !andb_true_iff, !existsb_exists.
    split.
    - intros [[(p & Hp & Hu) Ha] Hst]. repeat split.
      + destruct (status c), st; cbn in Hst; congruence.
      + exists p. split; [exact Hp|]. apply Nat.eqb_eq, Hu.
      + exact Ha.
    - intros (Hst & (p & Hp & Hu) & Ha). repeat split.
      + exists p. split; [exact Hp|]. apply Nat.eqb_eq, Hu.
      + exact Ha.
      + subst st. destruct (status c); reflexivity. }
  split.
  - intros Hin. apply (Permutation_in _ Hperm) in Hin.
    apply filter_In in Hin. destruct Hin as [Hin Hmatch].
    split; [exact Hin|]. apply Hm, Hmatch.
  - intros [Hin Hrest].
    apply (Permutation_in _ (Permutation_sym Hperm)).
    apply filter_In. split; [exact Hin|]. apply Hm, Hrest.
Qed.

(** C6.  The code at the failing input: user 7 has left the conversation
    (the entry of user 7 is inactive) and user 8 has not.  The handler that
    joins a room refuses user 7, who is not an active participant, yet
    [findUserChats] returns the conversation for user 7. *)
Theorem C6_findUserChats_returns_a_chat_the_principal_left :
  isParticipant 7 sample_left_chat = false /\
  status sample_left_chat = active /\
  findUserChats 7 active [sample_left_chat] = [sample_left_chat] /\
  join_chat 7 10%Z 50 [sample_left_chat]
  = ([sample_left_chat],
     [socket_emit (error "Not authorized to join this chat")]).
Proof. repeat split. Qed.

(** ** Creating a conversation *)

Lemma findByPostAndUsers_swap (postId a b : ObjectId) (db : Store) :
  findByPostAndUsers postId [a; b] db = findByPostAndUsers postId [b; a] db.
Proof.
  unfold findByPostAndUsers.
  induction db as [|c db IH]; cbn [find]; [reflexivity|].
  rewrite IH.
  replace (participants_user_all [b; a] c)
    with (participants_user_all [a; b] c); [reflexivity|].
  unfold participants_user_all. cbn [forallb].
  rewrite !andb_true_r. apply andb_comm.
Qed.

Lemma find_insert (P : Chat -> bool) (chat : Chat) (db : Store) :
  find P db = None -> P chat = true ->
  find P (insert chat db) = Some chat.
Proof.
  unfold insert. intros Hnone Hp.
  induction db as [|c db IH]; cbn [find app] in *.
  - rewrite Hp. reflexivity.
  - destruct (P c); [discriminate|]. apply IH, Hnone.
Qed.

Lemma find_write_insert (P : Chat -> bool) (chat saved : Chat) (db : Store) :
  find P db = None -> P saved = true -> _id saved = _id chat ->
  find P (write saved (insert chat db)) = Some saved.
Proof.
  unfold write, insert. intros Hnone Hp Hid.
  induction db as [|c db IH]; cbn [find app map] in *.
  - rewrite Hid, Nat.eqb_refl, Hp. reflexivity.
  - destruct (P c) eqn:Hc; [discriminate|].
    destruct (Nat.eqb (_id c) (_id saved)).
    + rewrite Hp. reflexivity.
    + rewrite Hc. apply IH, Hnone.
Qed.

Lemma truthy_Some (s : string) : s <> "" -> truthy (Some s) = Some s.
Proof. destruct s; [congruence|reflexivity]. Qed.

(** The first [create_chat]: what it leaves in the collection, and what it
    answers when it creates the conversation. *)
Lemma create_chat_first (db : Store) (me other postId : ObjectId)
    (now : Date) (newChatId newId : ObjectId)
    (initialMessage : option string) :
  exists chat db1 out,
    create_chat me now newChatId newId postId other initialMessage db
    = (db1, out) /\
    findByPostAndUsers postId [me; other] db1 = Some chat /\
    List.length db1
    = match findByPostAndUsers postId [me; other] db with
      | Some _ => List.length db
      | None => S (List.length db)
      end /\
    (findByPostAndUsers postId [me; other] db = Some chat /\
     out = [socket_emit (chat_created chat)] \/
     findByPostAndUsers postId [me; other] db = None /\
     match truthy initialMessage with
     | Some s =>
         match validate_content (trim s) with
         | None => In (socket_emit (chat_created chat)) out
         | Some _ =>
             db1 = insert (new_Chat now newChatId me other postId) db /\
             chat = new_Chat now newChatId me other postId /\
             out = [socket_emit (error "Failed to create chat")]
         end
     | None => In (socket_emit (chat_created chat)) out
     end).
Proof.
  assert (Hmatch : forall chat0,
            post chat0 = postId ->
            status chat0 = active ->
            participants chat0
            = participants (new_Chat now newChatId me other postId) ->
            (fun c =>
               Nat.eqb (post c) postId &&
               participants_user_all [me; other] c &&
               negb (Status_eqb (status c) archived)) chat0 = true).
  { intros chat0 Hpost Hst Hps. cbn beta.
    unfold participants_user_all. rewrite Hpost, Hst, Hps.
    cbn. rewrite !Nat.eqb_refl, !orb_true_r. reflexivity. }
  unfold create_chat.
  destruct (findByPostAndUsers postId [me; other] db) as [existing|] eqn:E.
  - exists existing, db. eexists. split; [reflexivity|].
    split; [exact E|]. split; [reflexivity|]. left. auto.
  - destruct (truthy initialMessage) as [s|].
    + rewrite addMessage_runs.
      destruct (validate_content (trim s)).
      * do 3 eexists. split; [reflexivity|].
        split.
        { unfold findByPostAndUsers.
          apply find_insert; [exact E|]. apply Hmatch; reflexivity. }
        split.
        { unfold insert. rewrite length_app. cbn [List.length]. lia. }
        right. auto.
      * do 3 eexists. split; [reflexivity|].
        split.
        { unfold findByPostAndUsers.
          apply find_write_insert; [exact E| |reflexivity].
          apply Hmatch; reflexivity. }
        split.
        { unfold write, insert. rewrite length_map, length_app.
          cbn [List.length]. lia. }
        right. split; [reflexivity|]. right; right; left; reflexivity.
    + do 3 eexists. split; [reflexivity|].
      split.
      { unfold findByPostAndUsers.
        apply find_insert; [exact E|]. apply Hmatch; reflexivity. }
      split.
      { unfold insert. rewrite length_app. cbn [List.length]. lia. }
      right. split; [reflexivity|]. right; right; left; reflexivity.
Qed.

(** C7, as stated, fails for the first of the two calls: no conversation
    exists for post 42 and users 7 and 8, and user 7 asks for one with an
    initial message of three spaces.  The conversation is created and
    stored, without the message, whose content the validation rejects; the
    handler answers "Failed to create chat" and returns no conversation.
    The second call returns the conversation the first one created. *)
Lemma C7_blank_initial_message_answers_error :
  exists chat,
    findByPostAndUsers 42 [7; 8] [] = None /\
    create_chat 7 10%Z 51 2 42 8 (Some "   ") []
    = ([chat], [socket_emit (error "Failed to create chat")]) /\
    _id chat = 51 /\
    messages chat = [] /\
    create_chat 7 20%Z 52 3 42 8 (Some "   ") [chat]
    = ([chat], [socket_emit (chat_created chat)]).
Proof.
  eexists.
  do 4 (split; [vm_compute; reflexivity|]).
  vm_compute. reflexivity.
Qed.

(** C7, amended.  [create_chat] creates no duplicate.  After a first event
    for a post and two principals the lookup finds a conversation for them;
    a second event for the same post and principals, sent by either of them,
    answers [chat_created] with exactly that conversation and leaves the
    collection as the first one left it; and the first event adds at most
    one document (none when the lookup already finds a conversation).  The
    first event answers [chat_created] with that same conversation when
    the lookup finds one, and when it creates one and its initial message is
    missing, empty, or, trimmed, not empty and of at most 1000 characters.
    When it creates one and its initial message is not empty but, trimmed,
    is empty or longer than 1000 characters, the conversation is stored
    without a message and the answer is the error "Failed to create
    chat". *)
Theorem C7_create_chat_idempotent (db : Store) (me other postId : ObjectId)
    (now1 now2 : Date) (newChatId1 newId1 newChatId2 newId2 : ObjectId)
    (initialMessage1 initialMessage2 : option string) :
  exists chat,
    findByPostAndUsers postId [me; other]
      (fst (create_chat me now1 newChatId1 newId1 postId other
              initialMessage1 db))
    = Some chat /\
    create_chat me now2 newChatId2 newId2 postId other initialMessage2
      (fst (create_chat me now1 newChatId1 newId1 postId other
              initialMessage1 db))
    = (fst (create_chat me now1 newChatId1 newId1 postId other
              initialMessage1 db),
       [socket_emit (chat_created chat)]) /\
    create_chat other now2 newChatId2 newId2 postId me initialMessage2
      (fst (create_chat me now1 newChatId1 newId1 postId other
              initialMessage1 db))
    = (fst (create_chat me now1 newChatId1 newId1 postId other
              initialMessage1 db),
       [socket_emit (chat_created chat)]) /\
    List.length
      (fst (create_chat me now1 newChatId1 newId1 postId other
              initialMessage1 db))
    = match findByPostAndUsers postId [me; other] db with
      | Some _ => List.length db
      | None => S (List.length db)
      end /\
    (forall existing,
       findByPostAndUsers postId [me; other] db = Some existing ->
       chat = existing /\
       create_chat me now1 newChatId1 newId1 postId other initialMessage1 db
       = (db, [socket_emit (chat_created chat)])) /\
    ((forall s, initialMessage1 = Some s ->
        s = "" \/ trim s <> "" /\ String.length (trim s) <= 1000) ->
     In (socket_emit (chat_created chat))
       (snd (create_chat me now1 newChatId1 newId1 postId other
               initialMessage1 db))) /\
    (findByPostAndUsers postId [me; other] db = None ->
     forall s, initialMessage1 = Some s -> s <> "" ->
       trim s = "" \/ 1000 < String.length (trim s) ->
       chat = new_Chat now1 newChatId1 me other postId /\
       create_chat me now1 newChatId1 newId1 postId other initialMessage1 db
       = (insert chat db, [socket_emit (error "Failed to create chat")])).
Proof.
  destruct (create_chat_first db me other postId now1 newChatId1 newId1
              initialMessage1)
    as (chat & db1 & out & Hfirst & Hfind & Hlen & Hout).
  rewrite Hfirst. cbn [fst snd].
  exists chat.
  split; [exact Hfind|].
  split.
  { unfold create_chat. rewrite Hfind. reflexivity. }
  split.
  { unfold create_chat.
    rewrite <- (findByPostAndUsers_swap postId me other db1), Hfind.
    reflexivity. }
  split; [exact Hlen|].
  split.
  { intros existing E.
    destruct Hout as [[E' ->]|[E' _]]; [|congruence].
    split; [congruence|].
    unfold create_chat in Hfirst. rewrite E' in Hfirst.
    injection Hfirst as <-. reflexivity. }
  split.
  { intros Hok.
    destruct Hout as [[_ ->]|[_ Hout]]; [left; reflexivity|].
    destruct initialMessage1 as [s|]; [|exact Hout].
    destruct (Hok s eq_refl) as [->|[Hne Hlen']]; [exact Hout|].
    destruct (truthy (Some s)) as [s'|] eqn:Ht; [|exact Hout].
    assert (s' = s) by (destruct s; [discriminate|injection Ht; auto]).
    subst s'.
    rewrite (proj2 (validate_content_None _) (conj Hne Hlen')) in Hout.
    exact Hout. }
  intros E s -> Hs Hbad.
  destruct Hout as [[E' _]|[_ Hout]]; [congruence|].
  rewrite (truthy_Some s Hs) in Hout.
  destruct (validate_content (trim s)) eqn:Hv.
  - destruct Hout as (-> & -> & ->). auto.
  - apply validate_content_None in Hv. destruct Hv as [Hne Hlen'].
    destruct Hbad; [congruence|lia].
Qed.

(** * Further properties of the model and of its callers *)

(** ** Participants *)

Lemma map_user_update_participant (userId : ObjectId)
    (f : Participant -> Participant) (ps : list Participant) :
  (forall p, user (f p) = user p) ->
  map user (update_participant userId f ps) = map user ps.
Proof.
  intros Hf. induction ps as [|p ps IH]; cbn; [reflexivity|].
  destruct (Nat.eqb (user p) userId); cbn.
  - rewrite Hf. reflexivity.
  - rewrite IH. reflexivity.
Qed.

Lemma map_joinedAt_update_participant (userId : ObjectId)
    (f : Participant -> Participant) (ps : list Participant) :
  (forall p, joinedAt (f p) = joinedAt p) ->
  map joinedAt (update_participant userId f ps) = map joinedAt ps.
Proof.
  intros Hf. induction ps as [|p ps IH]; cbn; [reflexivity|].
  destruct (Nat.eqb (user p) userId); cbn.
  - rewrite Hf. reflexivity.
  - rewrite IH. reflexivity.
Qed.

Lemma entry_update_participant (userId : ObjectId)
    (f : Participant -> Participant) (ps : list Participant) :
  (forall p, user (f p) = user p) ->
  entry userId (update_participant userId f ps)
  = option_map f (entry userId ps).
Proof.
  intros Hf. unfold entry.
  induction ps as [|p ps IH]; cbn; [reflexivity|].
  destruct (Nat.eqb (user p) userId) eqn:E; cbn.
  - rewrite Hf, E. reflexivity.
  - rewrite E. exact IH.
Qed.

Lemma update_participant_other (userId other : ObjectId)
    (f : Participant -> Participant) (ps : list Participant) :
  (forall p, user (f p) = user p) -> other <> userId ->
  existsb (fun p => Nat.eqb (user p) other && isActive p)
    (update_participant userId f ps)
  = existsb (fun p => Nat.eqb (user p) other && isActive p) ps.
Proof.
  intros Hf Hne. induction ps as [|p ps IH]; cbn; [reflexivity|].
  destruct (Nat.eqb (user p) userId) eqn:E; cbn.
  - rewrite Hf. apply Nat.eqb_eq in E. rewrite E.
    destruct (Nat.eqb userId other) eqn:E'; [|reflexivity].
    apply Nat.eqb_eq in E'. congruence.
  - rewrite IH. reflexivity.
Qed.

Lemma update_participant_activates (userId : ObjectId)
    (ps : list Participant) (p : Participant) :
  entry userId ps = Some p ->
  existsb (fun p => Nat.eqb (user p) userId && isActive p)
    (update_participant userId (set_isActive true) ps) = true.
Proof.
  unfold entry. induction ps as [|q ps IH]; cbn; [discriminate|].
  destruct (Nat.eqb (user q) userId) eqn:E; cbn.
  - intros _. rewrite E. reflexivity.
  - intros H. rewrite E. cbn. apply IH, H.
Qed.

Lemma update_participant_deactivates (userId : ObjectId)
    (ps : list Participant) :
  NoDup (map user ps) ->
  existsb (fun p => Nat.eqb (user p) userId && isActive p)
    (update_participant userId (set_isActive false) ps) = false.
Proof.
  induction ps as [|q ps IH]; cbn; [reflexivity|].
  intros Hnd. inversion Hnd as [|? ? Hnotin Hnd']; subst.
  destruct (Nat.eqb (user q) userId) eqn:E; cbn.
  - rewrite andb_false_r. cbn.
    apply Nat.eqb_eq in E. subst userId.
    destruct (existsb (fun p => Nat.eqb (user p) (user q) && isActive p) ps)
      eqn:Ex; [|reflexivity].
    apply existsb_exists in Ex. destruct Ex as (p & Hin & Hp).
    apply andb_true_iff in Hp. destruct Hp as [Hu _].
    apply Nat.eqb_eq in Hu. exfalso. apply Hnotin.
    rewrite <- Hu. apply in_map, Hin.
  - rewrite E. cbn. apply IH, Hnd'.
Qed.

Lemma update_participant_absent (userId : ObjectId)
    (f : Participant -> Participant) (ps : list Participant) :
  entry userId ps = None -> update_participant userId f ps = ps.
Proof.
  unfold entry. induction ps as [|q ps IH]; cbn; [reflexivity|].
  destruct (Nat.eqb (user q) userId); [discriminate|].
  intros H. rewrite (IH H). reflexivity.
Qed.

Lemma update_participant_fixes (userId : ObjectId)
    (f : Participant -> Participant) (ps : list Participant)
    (p : Participant) :
  entry userId ps = Some p -> f p = p ->
  update_participant userId f ps = ps.
Proof.
  unfold entry. induction ps as [|q ps IH]; cbn; [discriminate|].
  destruct (Nat.eqb (user q) userId).
  - intros H Hf. injection H as ->. rewrite Hf. reflexivity.
  - intros H Hf. rewrite (IH H Hf). reflexivity.
Qed.

Lemma update_participant_twice (userId : ObjectId)
    (f g : Participant -> Participant) (ps : list Participant) :
  (forall p, user (g p) = user p) ->
  update_participant userId f (update_participant userId g ps)
  = update_participant userId (fun p => f (g p)) ps.
Proof.
  intros Hg. induction ps as [|q ps IH]; cbn; [reflexivity|].
  destruct (Nat.eqb (user q) userId) eqn:E; cbn.
  - rewrite Hg, E. reflexivity.
  - rewrite E, IH. reflexivity.
Qed.

Lemma set_participants_same (c : Chat) :
  set_participants (participants c) c = c.
Proof. destruct c; reflexivity. Qed.

Lemma set_isActive_true_same (p : Participant) :
  isActive p = true -> set_isActive true p = p.
Proof. destruct p; cbn. intros ->. reflexivity. Qed.

(** [addParticipant] and [removeParticipant] never throw; what they save. *)
Lemma addParticipant_saved (now : Date) (userId : ObjectId) (c : Chat) :
  let saved :=
    set_participants
      match entry userId (participants c) with
      | None =>
          participants c ++
          [{| user := userId; joinedAt := now; lastSeen := now;
              isActive := true |}]
      | Some _ =>
          update_participant userId (set_isActive true) (participants c)
      end c in
  call (addParticipant now userId) c = (Return saved, saved).
Proof.
  unfold call, addParticipant, bind, read, entry. cbn [this].
  destruct (find (fun p => Nat.eqb (user p) userId) (participants c));
    reflexivity.
Qed.

Lemma removeParticipant_saved (now : Date) (userId : ObjectId) (c : Chat) :
  let saved :=
    set_participants
      (update_participant userId (set_isActive false) (participants c)) c in
  call (removeParticipant now userId) c = (Return saved, saved).
Proof. reflexivity. Qed.

Lemma entry_existsb (userId : ObjectId) (ps : list Participant) :
  existsb (fun p => Nat.eqb (user p) userId) ps
  = match entry userId ps with Some _ => true | None => false end.
Proof.
  unfold entry. induction ps as [|q ps IH]; cbn; [reflexivity|].
  destruct (Nat.eqb (user q) userId); [reflexivity|exact IH].
Qed.

Lemma entry_None_not_In (userId : ObjectId) (ps : list Participant) :
  entry userId ps = None -> ~ In userId (map user ps).
Proof.
  unfold entry. intros H Hin. apply in_map_iff in Hin.
  destruct Hin as (p & Hu & Hin).
  apply (find_none _ _ H) in Hin. apply Nat.eqb_neq in Hin. congruence.
Qed.

Lemma entry_app_new (userId : ObjectId) (ps : list Participant)
    (p : Participant) :
  entry userId ps = None -> user p = userId ->
  entry userId (ps ++ [p]) = Some p.
Proof.
  unfold entry. intros Hnone Hu.
  induction ps as [|q ps IH]; cbn in *.
  - rewrite Hu, Nat.eqb_refl. reflexivity.
  - destruct (Nat.eqb (user q) userId); [discriminate|]. apply IH, Hnone.
Qed.

Lemma isParticipant_entry (userId : ObjectId) (c : Chat) (p : Participant) :
  entry userId (participants c) = Some p -> isActive p = true ->
  isParticipant userId c = true.
Proof.
  unfold isParticipant, entry. intros H Ha.
  apply find_some in H. destruct H as [Hin Hu].
  apply existsb_exists. exists p. split; [exact Hin|].
  rewrite Hu, Ha. reflexivity.
Qed.

(** X1.  [addParticipant] makes the user an active participant and never
    gives a user a second entry: a user without an entry gets one at the
    end, a user with an entry has the first one reactivated and the list of
    users stays as it was; the entries of the other users and every other
    field are untouched; and adding the same user again changes nothing. *)
Theorem addParticipant_grants_without_duplicate (c : Chat) (now : Date)
    (userId : ObjectId) :
  exists saved,
    call (addParticipant now userId) c = (Return saved, saved) /\
    isParticipant userId saved = true /\
    (forall other, other <> userId ->
       isParticipant other saved = isParticipant other c) /\
    map user (participants saved)
    = (if existsb (fun p => Nat.eqb (user p) userId) (participants c)
       then map user (participants c)
       else map user (participants c) ++ [userId]) /\
    (NoDup (map user (participants c)) ->
     NoDup (map user (participants saved))) /\
    saved = set_participants (participants saved) c /\
    (forall now',
       call (addParticipant now' userId) saved = (Return saved, saved)).
Proof.
  eexists. split; [apply addParticipant_saved|].
  rewrite entry_existsb.
  destruct (entry userId (participants c)) as [p|] eqn:E;
    cbn [participants set_participants].
  - assert (E' : entry userId
                   (update_participant userId (set_isActive true)
                      (participants c))
                 = Some (set_isActive true p)).
    { rewrite entry_update_participant by reflexivity. rewrite E.
      reflexivity. }
    split; [apply (update_participant_activates _ _ p E)|].
    split.
    { intros other Hne. apply update_participant_other; [reflexivity|].
      exact Hne. }
    split; [apply map_user_update_participant; reflexivity|].
    split.
    { rewrite map_user_update_participant by reflexivity. auto. }
    split; [reflexivity|].
    intros now'. rewrite addParticipant_saved.
    cbn [participants set_participants]. rewrite E'.
    rewrite (update_participant_fixes userId (set_isActive true) _ _ E')
      by reflexivity.
    reflexivity.
  - assert (E' : entry userId
                   (participants c ++
                    [{| user := userId; joinedAt := now; lastSeen := now;
                        isActive := true |}])
                 = Some {| user := userId; joinedAt := now; lastSeen := now;
                           isActive := true |}).
    { apply entry_app_new; [exact E|reflexivity]. }
    split.
    { unfold isParticipant. cbn [participants set_participants].
      rewrite existsb_app. cbn. rewrite Nat.eqb_refl.
      apply orb_true_r. }
    split.
    { intros other Hne. unfold isParticipant.
      cbn [participants set_participants]. rewrite existsb_app. cbn.
      destruct (Nat.eqb userId other) eqn:E0.
      - apply Nat.eqb_eq in E0. congruence.
      - cbn. rewrite orb_false_r. reflexivity. }
    split; [rewrite map_app; reflexivity|].
    split.
    { intros Hnd. rewrite map_app. cbn [map].
      apply (Permutation_NoDup (Permutation_cons_append _ _)).
      constructor; [apply entry_None_not_In, E|exact Hnd]. }
    split; [reflexivity|].
    intros now'. rewrite addParticipant_saved.
    cbn [participants set_participants]. rewrite E'.
    rewrite (update_participant_fixes userId (set_isActive true) _ _ E')
      by reflexivity.
    reflexivity.
Qed.

(** X2.  [removeParticipant] is a soft removal.  In a conversation whose
    participants are distinct users, the user is no active participant
    afterwards, so that the handlers and the route middleware refuse him,
    while his entry, with the time he joined, stays in the list and the
    messages and the other participants are untouched; a user without an
    entry leaves the document as it was. *)
Theorem removeParticipant_revokes (c : Chat) (now : Date)
    (userId : ObjectId) :
  NoDup (map user (participants c)) ->
  exists saved,
    call (removeParticipant now userId) c = (Return saved, saved) /\
    isParticipant userId saved = false /\
    (forall other, other <> userId ->
       isParticipant other saved = isParticipant other c) /\
    map user (participants saved) = map user (participants c) /\
    map joinedAt (participants saved) = map joinedAt (participants c) /\
    messages saved = messages c /\
    (entry userId (participants c) = None -> saved = c) /\
    (forall db chatId, findById chatId db = Some saved ->
       (forall now' newId text_ ty att,
          send_message userId now' newId chatId text_ ty att db
          = (db, [socket_emit
                    (error "Not authorized to send messages in this chat")])) /\
       (forall now',
          join_chat userId now' chatId db
          = (db, [socket_emit (error "Not authorized to join this chat")])) /\
       validateChatParticipation userId (Some chatId) None db
       = respond {| code := 403;
                    error_ := "Not authorized to access this chat";
                    retryAfter := None |}).
Proof.
  intros Hnd. eexists. split; [apply removeParticipant_saved|].
  assert (Hno : isParticipant userId
                  (set_participants
                     (update_participant userId (set_isActive false)
                        (participants c)) c) = false).
  { apply update_participant_deactivates, Hnd. }
  split; [exact Hno|].
  split.
  { intros other Hne. apply update_participant_other; [reflexivity|].
    exact Hne. }
  split; [apply map_user_update_participant; reflexivity|].
  split; [apply map_joinedAt_update_participant; reflexivity|].
  split; [reflexivity|].
  split.
  { intros E. rewrite (update_participant_absent _ _ _ E).
    apply set_participants_same. }
  intros db chatId Hfind.
  split; [|split].
  - intros now' newId text_ ty att. unfold send_message.
    rewrite Hfind, Hno. reflexivity.
  - intros now'. unfold join_chat. rewrite Hfind, Hno. reflexivity.
  - unfold validateChatParticipation. rewrite Hfind, Hno. reflexivity.
Qed.

Lemma removeParticipant_revokes_witness :
  exists saved,
    call (removeParticipant 10%Z 7) (sample_chat active [sample_message])
    = (Return saved, saved) /\
    isParticipant 7 saved = false /\
    isParticipant 8 saved = true /\
    map user (participants saved) = [7; 8] /\
    send_message 7 20%Z 2 50 "hello" None None [saved]
    = ([saved],
       [socket_emit (error "Not authorized to send messages in this chat")]).
Proof.
  destruct (removeParticipant_revokes (sample_chat active [sample_message])
              10%Z 7)
    as (saved & Hcall & Hno & Hother & Husers & _ & _ & _ & Hdb).
  { repeat constructor; cbn; intuition discriminate. }
  exists saved.
  split; [exact Hcall|]. split; [exact Hno|].
  split; [rewrite Hother; [reflexivity|discriminate]|].
  split; [exact Husers|].
  apply (Hdb [saved] 50).
  injection Hcall as <-. reflexivity.
Defined.

(** X3.  Removing a participant and adding him again: the second call
    reactivates the entry the first one switched off instead of appending
    one, the entry keeps the time the user joined and the time he was last
    seen, the result is what adding him to the original document gives, and
    it is the original document when his entry was active. *)
Theorem remove_then_add_restores (c : Chat) (now1 now2 : Date)
    (userId : ObjectId) (p : Participant) :
  entry userId (participants c) = Some p ->
  exists removed restored,
    call (removeParticipant now1 userId) c = (Return removed, removed) /\
    entry userId (participants removed) = Some (set_isActive false p) /\
    call (addParticipant now2 userId) removed = (Return restored, restored) /\
    call (addParticipant now2 userId) c = (Return restored, restored) /\
    entry userId (participants restored) = Some (set_isActive true p) /\
    List.length (participants restored) = List.length (participants c) /\
    (isActive p = true -> restored = c).
Proof.
  intros E. do 2 eexists.
  split; [apply removeParticipant_saved|].
  assert (E1 : entry userId
                 (update_participant userId (set_isActive false)
                    (participants c))
               = Some (set_isActive false p)).
  { rewrite entry_update_participant by reflexivity. rewrite E.
    reflexivity. }
  split; [exact E1|].
  split.
  { rewrite addParticipant_saved. cbn [participants set_participants].
    rewrite E1. rewrite update_participant_twice by reflexivity.
    reflexivity. }
  split.
  { rewrite addParticipant_saved. rewrite E. reflexivity. }
  cbn [participants set_participants].
  split.
  { rewrite entry_update_participant by reflexivity. rewrite E.
    reflexivity. }
  split.
  { rewrite <- (length_map user), <- (length_map user (participants c)).
    rewrite map_user_update_participant by reflexivity. reflexivity. }
  intros Ha.
  change (set_participants
            (update_participant userId (set_isActive true) (participants c))
            c = c).
  rewrite (update_participant_fixes userId (set_isActive true)
             (participants c) p E).
  - apply set_participants_same.
  - apply set_isActive_true_same, Ha.
Qed.

Lemma remove_then_add_restores_witness :
  exists removed restored,
    call (removeParticipant 10%Z 7) (sample_chat active [sample_message])
    = (Return removed, removed) /\
    call (addParticipant 20%Z 7) removed = (Return restored, restored) /\
    restored = sample_chat active [sample_message].
Proof.
  destruct (remove_then_add_restores (sample_chat active [sample_message])
              10%Z 20%Z 7
              {| user := 7; joinedAt := 1%Z; lastSeen := 1%Z;
                 isActive := true |} eq_refl)
    as (removed & restored & H1 & _ & H2 & _ & _ & _ & H3).
  exists removed, restored.
  split; [exact H1|]. split; [exact H2|]. apply H3. reflexivity.
Defined.

(** ** The collection under the handlers *)

Lemma findById_found (chatId : ObjectId) (db : Store) (c : Chat) :
  findById chatId db = Some c -> _id c = chatId.
Proof.
  unfold findById. intros H. apply find_some in H.
  apply Nat.eqb_eq, H.
Qed.

Lemma findById_write_other (other : ObjectId) (saved : Chat) (db : Store) :
  _id saved <> other ->
  findById other (write saved db) = findById other db.
Proof.
  unfold findById, write. intros Hne.
  induction db as [|d db IH]; cbn; [reflexivity|].
  destruct (Nat.eqb (_id d) (_id saved)) eqn:E.
  - apply Nat.eqb_eq in E. rewrite E.
    apply Nat.eqb_neq in Hne. rewrite Hne. exact IH.
  - rewrite IH. reflexivity.
Qed.

Lemma findById_write_same (saved old : Chat) (db : Store) :
  findById (_id saved) db = Some old ->
  findById (_id saved) (write saved db) = Some saved.
Proof.
  unfold findById, write.
  induction db as [|d db IH]; cbn; [discriminate|].
  destruct (Nat.eqb (_id d) (_id saved)) eqn:E.
  - intros _. rewrite Nat.eqb_refl. reflexivity.
  - intros H. rewrite E. apply IH, H.
Qed.

Lemma length_write (saved : Chat) (db : Store) :
  List.length (write saved db) = List.length db.
Proof. unfold write. apply length_map. Qed.

Lemma findById_insert_other (other : ObjectId) (c : Chat) (db : Store) :
  _id c <> other -> findById other (insert c db) = findById other db.
Proof.
  unfold findById, insert. intros Hne.
  induction db as [|d db IH]; cbn.
  - apply Nat.eqb_neq in Hne. rewrite Hne. reflexivity.
  - destruct (Nat.eqb (_id d) other); [reflexivity|exact IH].
Qed.

(** What [markMessagesAsRead] saves, field by field. *)
Lemma markMessagesAsRead_fields (now : Date) (userId : ObjectId)
    (messageIds : option (list ObjectId)) (c : Chat) :
  exists saved,
    call (markMessagesAsRead now userId messageIds) c = (Return saved, saved) /\
    _id saved = _id c /\
    messages saved = marked now userId messageIds (messages c) /\
    participants saved
    = update_participant userId (set_lastSeen now) (participants c) /\
    status saved = status c.
Proof.
  eexists. split; [apply markMessagesAsRead_saved|].
  destruct (marks_some userId messageIds c); repeat split.
Qed.

(** X4.  A handler writes no other conversation than the one its event
    names: whatever the event and whoever sends it, every other conversation
    of the collection is found afterwards as it was before, and
    [send_message], [edit_message], [delete_message], [mark_read] and
    [join_chat] neither add nor drop a document; after [create_chat] every
    conversation but the new one is as it was. *)
Theorem handlers_write_only_their_chat (db : Store) (me : ObjectId)
    (now : Date) (newId chatId other : ObjectId) (text_ : string)
    (ty : option MessageType) (att : option Attachment)
    (messageId : ObjectId) (messageIds : option (list ObjectId))
    (newChatId postId participantId : ObjectId)
    (initialMessage : option string) :
  other <> chatId ->
  other <> newChatId ->
  (findById other (fst (send_message me now newId chatId text_ ty att db))
   = findById other db /\
   List.length (fst (send_message me now newId chatId text_ ty att db))
   = List.length db) /\
  (findById other (fst (edit_message me now chatId messageId text_ db))
   = findById other db /\
   List.length (fst (edit_message me now chatId messageId text_ db))
   = List.length db) /\
  (findById other (fst (delete_message me now chatId messageId db))
   = findById other db /\
   List.length (fst (delete_message me now chatId messageId db))
   = List.length db) /\
  (findById other (fst (mark_read me now chatId messageIds db))
   = findById other db /\
   List.length (fst (mark_read me now chatId messageIds db))
   = List.length db) /\
  (findById other (fst (join_chat me now chatId db)) = findById other db /\
   List.length (fst (join_chat me now chatId db)) = List.length db) /\
  findById other
    (fst (create_chat me now newChatId newId postId participantId
            initialMessage db))
  = findById other db.
Proof.
  intros Hne Hnew.
  assert (Hw : forall chat saved,
            findById chatId db = Some chat -> _id saved = _id chat ->
            findById other (write saved db) = findById other db).
  { intros chat saved Hfind Hid. apply findById_write_other.
    rewrite Hid, (findById_found _ _ _ Hfind). auto. }
  split.
  { destruct (findById chatId db) as [chat|] eqn:Hfind;
      [|unfold send_message; rewrite Hfind; auto].
    destruct (isParticipant me chat) eqn:Hp;
      [|unfold send_message; rewrite Hfind, Hp; auto].
    rewrite (send_message_runs db me now newId chatId text_ ty att chat
               Hfind Hp).
    rewrite addMessage_runs. cbn [fst].
    destruct (validate_content (trim text_)); [auto|].
    split; [apply (Hw chat); reflexivity|apply length_write]. }
  split.
  { unfold edit_message.
    destruct (findById chatId db) as [chat|] eqn:Hfind; [|auto].
    destruct (call (editMessage now messageId text_ me) chat)
      as [[saved|[message]|[message]] c'] eqn:Hcall; [|auto|auto].
    apply editMessage_returns in Hcall. destruct Hcall as [-> _].
    cbn [fst].
    split; [apply (Hw chat); reflexivity|apply length_write]. }
  split.
  { unfold delete_message.
    destruct (findById chatId db) as [chat|] eqn:Hfind; [|auto].
    destruct (call (deleteMessage now messageId me) chat)
      as [[saved|[message]|[message]] c'] eqn:Hcall; [|auto|auto].
    apply deleteMessage_returns in Hcall. destruct Hcall as [-> _].
    cbn [fst].
    split; [apply (Hw chat); reflexivity|apply length_write]. }
  split.
  { unfold mark_read.
    destruct (findById chatId db) as [chat|] eqn:Hfind; [|auto].
    destruct (markMessagesAsRead_fields now me messageIds chat)
      as (saved & Hcall & Hid & _).
    rewrite Hcall. cbn [fst].
    split; [apply (Hw chat _ eq_refl Hid)|apply length_write]. }
  split.
  { unfold join_chat.
    destruct (findById chatId db) as [chat|] eqn:Hfind; [|auto].
    destruct (negb (isParticipant me chat)); [auto|].
    destruct (markMessagesAsRead_fields now me None chat)
      as (saved & Hcall & Hid & _).
    rewrite Hcall. cbn [fst].
    split; [apply (Hw chat _ eq_refl Hid)|apply length_write]. }
  unfold create_chat.
  destruct (findByPostAndUsers postId [me; participantId] db);
    [reflexivity|].
  destruct (truthy initialMessage) as [s|].
  - rewrite addMessage_runs.
    destruct (validate_content (trim s)); cbn [fst].
    + apply findById_insert_other. cbn. auto.
    + rewrite findById_write_other by (cbn; auto).
      apply findById_insert_other. cbn. auto.
  - cbn [fst]. apply findById_insert_other. cbn. auto.
Qed.

Lemma handlers_write_only_their_chat_witness :
  findById 51
    (fst (send_message 7 10%Z 2 50 "hello" None None
            [sample_chat active []; sample_left_chat]))
  = findById 51 [sample_chat active []; sample_left_chat] /\
  List.length
    (fst (send_message 7 10%Z 2 50 "hello" None None
            [sample_chat active []; sample_left_chat]))
  = 2.
Proof.
  apply (handlers_write_only_their_chat
           [sample_chat active []; sample_left_chat] 7 10%Z 2 50 51 "hello"
           None None 1 None 52 42 8 None); discriminate.
Defined.

Lemma existsb_update_participant (userId : ObjectId)
    (f : Participant -> Participant) (test : Participant -> bool)
    (ps : list Participant) :
  (forall p, test (f p) = test p) ->
  existsb test (update_participant userId f ps) = existsb test ps.
Proof.
  intros Hf. induction ps as [|q ps IH]; cbn; [reflexivity|].
  destruct (Nat.eqb (user q) userId); cbn.
  - rewrite Hf. reflexivity.
  - rewrite IH. reflexivity.
Qed.

Lemma isParticipant_has_entry (userId : ObjectId) (c : Chat) :
  isParticipant userId c = true ->
  exists p, entry userId (participants c) = Some p.
Proof.
  unfold isParticipant. intros H.
  assert (He : existsb (fun p => Nat.eqb (user p) userId) (participants c)
               = true).
  { apply existsb_exists in H. destruct H as (p & Hin & Hp).
    apply existsb_exists. exists p. split; [exact Hin|].
    apply andb_true_iff in Hp. tauto. }
  rewrite entry_existsb in He.
  destruct (entry userId (participants c)) as [p|]; [|discriminate].
  exists p. reflexivity.
Qed.

(** X5.  An active participant who joins a room: the handler marks what the
    others sent as read and saves, so that the conversation then found in
    the collection has no unread message for him, his entry carries the time
    of the join as lastSeen, and he is still an active participant; the room
    is joined and the others are told that he is online. *)
Theorem join_chat_reads_everything (db : Store) (me : ObjectId) (now : Date)
    (chatId : ObjectId) (chat : Chat) :
  findById chatId db = Some chat ->
  isParticipant me chat = true ->
  exists saved,
    join_chat me now chatId db
    = (write saved db,
       [socket_join (chat_ chatId);
        socket_to_emit (chat_ chatId) (user_online me)]) /\
    findById chatId (write saved db) = Some saved /\
    getUnreadCount me saved = 0 /\
    option_map lastSeen (entry me (participants saved)) = Some now /\
    isParticipant me saved = true /\
    map msg_id (messages saved) = map msg_id (messages chat).
Proof.
  intros Hfind Hp.
  destruct (markMessagesAsRead_fields now me None chat)
    as (saved & Hcall & Hid & Hms & Hps & _).
  exists saved.
  split.
  { unfold join_chat. rewrite Hfind, Hp. cbn [negb]. rewrite Hcall.
    reflexivity. }
  split.
  { rewrite (findById_found _ _ _ Hfind) in Hid.
    rewrite <- Hid. apply (findById_write_same saved chat).
    rewrite Hid. exact Hfind. }
  split.
  { unfold getUnreadCount. fold (unread_for me).
    rewrite Hms, unread_marked_all. reflexivity. }
  destruct (isParticipant_has_entry me chat Hp) as (p & E).
  split.
  { rewrite Hps, entry_update_participant by reflexivity. rewrite E.
    reflexivity. }
  split.
  { unfold isParticipant. rewrite Hps.
    rewrite existsb_update_participant by reflexivity. exact Hp. }
  rewrite Hms. cbn [marked]. rewrite map_map. apply map_ext.
  intros m. destruct (unread_by_other me m); reflexivity.
Qed.

Lemma join_chat_reads_everything_witness :
  exists saved,
    join_chat 8 10%Z 50 [sample_chat active [sample_message]]
    = (write saved [sample_chat active [sample_message]],
       [socket_join (chat_ 50); socket_to_emit (chat_ 50) (user_online 8)]) /\
    getUnreadCount 8 (sample_chat active [sample_message]) = 1 /\
    getUnreadCount 8 saved = 0.
Proof.
  destruct (join_chat_reads_everything
              [sample_chat active [sample_message]] 8 10%Z 50
              (sample_chat active [sample_message]) eq_refl eq_refl)
    as (saved & Hjoin & _ & Hcount & _).
  exists saved. split; [exact Hjoin|]. split; [reflexivity|exact Hcount].
Defined.

(** ** The read flag and the unread counts *)

Lemma filter_length_le {A} (P Q : A -> bool) (l : list A) :
  (forall a, P a = true -> Q a = true) ->
  List.length (filter P l) <= List.length (filter Q l).
Proof.
  intros H. induction l as [|a l IH]; cbn; [apply Nat.le_refl|].
  destruct (P a) eqn:Pa.
  - rewrite (H a Pa). cbn. lia.
  - destruct (Q a); cbn; lia.
Qed.

Lemma unread_after_reading (now : Date) (reader other : ObjectId)
    (ms : list Message) :
  other <> reader ->
  filter (unread_for other) (marked now reader None ms)
  = filter
      (fun m =>
         negb (isRead m) && Nat.eqb (sender m) reader && negb (isDeleted m))
      ms.
Proof.
  intros Hne. induction ms as [|m ms IH]; [reflexivity|].
  cbn [marked map filter] in *.
  unfold unread_by_other, unread_for in *.
  destruct (isRead m) eqn:Hr, (Nat.eqb (sender m) reader) eqn:Hs,
    (Nat.eqb (sender m) other) eqn:Ho, (isDeleted m) eqn:Hd;
    cbn; rewrite ?Hr, ?Hs, ?Ho, ?Hd; cbn; rewrite ?IH; try reflexivity;
    apply Nat.eqb_eq in Hs; apply Nat.eqb_eq in Ho; congruence.
Qed.

Lemma nothing_sent_nothing_unread (reader : ObjectId) (ms : list Message) :
  (forall m, In m ms -> sender m <> reader) ->
  filter
    (fun m =>
       negb (isRead m) && Nat.eqb (sender m) reader && negb (isDeleted m))
    ms
  = [].
Proof.
  induction ms as [|m ms IH]; intros H; [reflexivity|].
  cbn [filter].
  assert (Hs : Nat.eqb (sender m) reader = false).
  { apply Nat.eqb_neq, H. left. reflexivity. }
  rewrite Hs, andb_false_r. cbn [andb].
  apply IH. intros m' Hin. apply H. right. exact Hin.
Qed.

(** X6.  The read flag belongs to the message, not to the reader, and
    [mark_read] asks for no participation.  When one principal reads a
    conversation (no ids given), the only messages that stay unread for any
    other principal are the unread ones the reader sent himself; so a reader
    who sent nothing leaves no unread message to anyone. *)
Theorem reading_clears_the_count_of_the_others (c : Chat) (now : Date)
    (reader other : ObjectId) :
  other <> reader ->
  exists saved,
    call (markMessagesAsRead now reader None) c = (Return saved, saved) /\
    getUnreadCount other saved
    = List.length
        (filter
           (fun m =>
              negb (isRead m) && Nat.eqb (sender m) reader &&
              negb (isDeleted m))
           (messages c)) /\
    getUnreadCount other saved <= getUnreadCount other c /\
    ((forall m, In m (messages c) -> sender m <> reader) ->
     forall anyone, getUnreadCount anyone saved = 0) /\
    (forall db chatId, findById chatId db = Some c ->
       mark_read reader now chatId None db
       = (write saved db,
          [socket_to_emit (chat_ chatId) (messages_read reader None)])).
Proof.
  intros Hne.
  destruct (markMessagesAsRead_fields now reader None c)
    as (saved & Hcall & _ & Hms & _).
  exists saved. split; [exact Hcall|].
  assert (Hcount : forall v, v <> reader ->
            getUnreadCount v saved
            = List.length
                (filter
                   (fun m =>
                      negb (isRead m) && Nat.eqb (sender m) reader &&
                      negb (isDeleted m))
                   (messages c))).
  { intros v Hv. unfold getUnreadCount. fold (unread_for v).
    rewrite Hms, (unread_after_reading now reader v _ Hv). reflexivity. }
  split; [apply Hcount, Hne|].
  split.
  { rewrite (Hcount other Hne). unfold getUnreadCount.
    apply filter_length_le. intros m H.
    apply andb_true_iff in H. destruct H as [H Hd].
    apply andb_true_iff in H. destruct H as [Hr Hs].
    apply Nat.eqb_eq in Hs.
    assert (Ho : Nat.eqb (sender m) other = false).
    { apply Nat.eqb_neq. congruence. }
    rewrite Hr, Ho, Hd. reflexivity. }
  split.
  { intros Hnone anyone.
    destruct (Nat.eq_dec anyone reader) as [->|Hv].
    - unfold getUnreadCount. fold (unread_for reader).
      rewrite Hms, unread_marked_all. reflexivity.
    - rewrite (Hcount anyone Hv), (nothing_sent_nothing_unread _ _ Hnone).
      reflexivity. }
  intros db chatId Hfind. unfold mark_read. rewrite Hfind, Hcall.
  reflexivity.
Qed.

Lemma reading_clears_the_count_of_the_others_witness :
  exists saved,
    isParticipant 9 (sample_chat active [sample_message]) = false /\
    mark_read 9 10%Z 50 None [sample_chat active [sample_message]]
    = (write saved [sample_chat active [sample_message]],
       [socket_to_emit (chat_ 50) (messages_read 9 None)]) /\
    getUnreadCount 8 (sample_chat active [sample_message]) = 1 /\
    getUnreadCount 8 saved = 0.
Proof.
  destruct (reading_clears_the_count_of_the_others
              (sample_chat active [sample_message]) 10%Z 9 8)
    as (saved & _ & _ & _ & Hzero & Hdb).
  { discriminate. }
  exists saved. split; [reflexivity|].
  split; [apply Hdb; reflexivity|].
  split; [reflexivity|].
  apply Hzero. intros m [<-|[]]. discriminate.
Defined.



(** ** The message log *)

Lemma map_update_id {B} (g : Message -> B) (messageId : ObjectId)
    (f : Message -> Message) (ms : list Message) :
  (forall m, g (f m) = g m) ->
  map g (update_id messageId f ms) = map g ms.
Proof.
  intros Hf. induction ms as [|m ms IH]; cbn; [reflexivity|].
  destruct (Nat.eqb (msg_id m) messageId); cbn.
  - rewrite Hf. reflexivity.
  - rewrite IH. reflexivity.
Qed.

Lemma map_marked {B} (g : Message -> B) (now : Date) (userId : ObjectId)
    (messageIds : option (list ObjectId)) (ms : list Message) :
  (forall m, g (read_fields now m) = g m) ->
  map g (marked now userId messageIds ms) = map g ms.
Proof.
  intros Hg. destruct messageIds as [ids|]; cbn [marked].
  - revert ms. induction ids as [|messageId ids IH]; intros ms;
      [reflexivity|].
    cbn [marked_ids]. rewrite IH.
    destruct (sent_by_other userId ms messageId); [|reflexivity].
    apply map_update_id, Hg.
  - rewrite map_map. apply map_ext. intros m.
    destruct (unread_by_other userId m); [apply Hg|reflexivity].
Qed.

(** X8.  No method removes, reorders or re-attributes a message.  Editing,
    deleting and reading keep the ids and the senders of the messages in
    their order (reading keeps the contents too); sending appends one message
    with the new id behind the others, in the document that is saved when
    the content passes the validation and not written otherwise; closing the
    conversation and adding or removing a participant leave the messages
    alone. *)
Theorem methods_keep_the_message_log (c : Chat) (now : Date) :
  (forall messageId newContent userId saved c',
     call (editMessage now messageId newContent userId) c
     = (Return saved, c') ->
     map msg_id (messages saved) = map msg_id (messages c) /\
     map sender (messages saved) = map sender (messages c)) /\
  (forall messageId userId saved c',
     call (deleteMessage now messageId userId) c = (Return saved, c') ->
     map msg_id (messages saved) = map msg_id (messages c) /\
     map sender (messages saved) = map sender (messages c)) /\
  (forall userId messageIds,
     exists saved,
       call (markMessagesAsRead now userId messageIds) c
       = (Return saved, saved) /\
       map msg_id (messages saved) = map msg_id (messages c) /\
       map sender (messages saved) = map sender (messages c) /\
       map content (messages saved) = map content (messages c)) /\
  (forall newId senderId text_ ty att,
     exists saved newMessage,
       call (addMessage now newId senderId text_ ty att) c
       = (match validate_content (trim text_) with
          | None => Return saved
          | Some message =>
              Reject (ValidationError (List.length (messages c)) message)
          end,
          saved) /\
       messages saved = messages c ++ [newMessage] /\
       msg_id newMessage = newId /\ sender newMessage = senderId) /\
  (forall closedBy,
     exists saved,
       call (closeChat now closedBy) c = (Return saved, saved) /\
       messages saved = messages c) /\
  (forall userId,
     exists saved,
       call (addParticipant now userId) c = (Return saved, saved) /\
       messages saved = messages c) /\
  (forall userId,
     exists saved,
       call (removeParticipant now userId) c = (Return saved, saved) /\
       messages saved = messages c).
Proof.
  split.
  { intros messageId newContent userId saved c' H.
    apply editMessage_returns in H. destruct H as [-> _].
    cbn [messages set_lastActivity set_messages].
    split; apply map_update_id; intros m.
    - apply msg_id_edit_fields.
    - apply sender_edit_fields. }
  split.
  { intros messageId userId saved c' H.
    apply deleteMessage_returns in H. destruct H as [-> _].
    cbn [messages set_lastActivity set_messages].
    split; apply map_update_id; reflexivity. }
  split.
  { intros userId messageIds.
    destruct (markMessagesAsRead_fields now userId messageIds c)
      as (saved & Hcall & _ & Hms & _).
    exists saved. split; [exact Hcall|]. rewrite Hms.
    repeat split; apply map_marked; reflexivity. }
  split.
  { intros newId senderId text_ ty att. do 2 eexists.
    split; [apply addMessage_runs|]. repeat split. }
  split.
  { intros [closedBy|]; eexists; split; reflexivity. }
  split.
  { intros userId. eexists. split; [apply addParticipant_saved|].
    reflexivity. }
  intros userId. eexists. split; reflexivity.
Qed.

(** X9.  A deleted message is frozen, but not erased.  After the sender
    has deleted a message no edit of it goes through any more, whoever asks
    (the sender gets "Cannot edit deleted message"), and the document stays
    as the deletion left it; the deletion replaces the content only:
    originalContent, which holds the text the message had before its first
    edit, isEdited, editedAt and the read flag stay as they were. *)
Theorem deleted_message_is_frozen (c : Chat) (now : Date)
    (messageId userId : ObjectId) (m : Message) :
  id messageId (messages c) = Some m ->
  sender m = userId ->
  exists saved m',
    call (deleteMessage now messageId userId) c = (Return saved, saved) /\
    id messageId (messages saved) = Some m' /\
    content m' = tombstone /\
    originalContent m' = originalContent m /\
    isEdited m' = isEdited m /\
    editedAt m' = editedAt m /\
    isRead m' = isRead m /\
    (forall now' newContent,
       call (editMessage now' messageId newContent userId) saved
       = (Throw MessageDeleted, saved)) /\
    (forall now' newContent requester,
       exists e,
         call (editMessage now' messageId newContent requester) saved
         = (Throw e, saved)) /\
    (forall edit edits,
       edit_all (edit :: edits) messageId userId saved = None).
Proof.
  intros Hid Hs.
  exists (set_lastActivity now
            (set_messages
               (update_id messageId (delete_fields now) (messages c)) c)),
    (delete_fields now m).
  split; [apply (deleteMessage_saved _ _ _ _ m Hid Hs)|].
  assert (Hid' : id messageId
                   (messages
                      (set_lastActivity now
                         (set_messages
                            (update_id messageId (delete_fields now)
                               (messages c)) c)))
                 = Some (delete_fields now m)).
  { cbn [messages set_lastActivity set_messages].
    rewrite id_update_id by reflexivity. rewrite Hid. reflexivity. }
  split; [exact Hid'|].
  repeat (split; [reflexivity|]).
  split.
  { intros now' newContent.
    apply (editMessage_deleted _ _ _ _ _ _ Hid' Hs). reflexivity. }
  split.
  { intros now' newContent requester.
    destruct (Nat.eq_dec (sender (delete_fields now m)) requester)
      as [Hr|Hr].
    - eexists. apply (editMessage_deleted _ _ _ _ _ _ Hid' Hr). reflexivity.
    - eexists. apply (editMessage_not_sender _ _ _ _ _ _ Hid' Hr). }
  intros [now' newContent] edits. cbn [edit_all].
  rewrite (editMessage_deleted _ _ _ _ _ _ Hid' Hs eq_refl). reflexivity.
Qed.

Lemma deleted_message_is_frozen_witness :
  exists saved m',
    call (deleteMessage 10%Z 1 7) (sample_chat active [sample_message])
    = (Return saved, saved) /\
    id 1 (messages saved) = Some m' /\
    content m' = tombstone /\
    call (editMessage 20%Z 1 "again" 7) saved = (Throw MessageDeleted, saved).
Proof.
  destruct (deleted_message_is_frozen (sample_chat active [sample_message])
              10%Z 1 7 sample_message eq_refl eq_refl)
    as (saved & m' & H1 & H2 & H3 & _ & _ & _ & _ & H4 & _).
  exists saved, m'. repeat split; auto.
Defined.

(** X10.  What a message does to the unread counts.  A message sent counts
    once for every principal but its sender (in the document that is saved
    when the content passes the validation and not written otherwise); a
    message deleted by its sender stops counting for those for whom it was
    unread; an edit changes nobody's count. *)
Theorem unread_counts_follow_the_log (c : Chat) (now : Date)
    (reader : ObjectId) :
  (forall newId senderId text_ ty att,
     exists saved,
       call (addMessage now newId senderId text_ ty att) c
       = (match validate_content (trim text_) with
          | None => Return saved
          | Some message =>
              Reject (ValidationError (List.length (messages c)) message)
          end,
          saved) /\
       getUnreadCount reader saved
       = getUnreadCount reader c + (if Nat.eqb senderId reader then 0 else 1)) /\
  (forall messageId userId m,
     id messageId (messages c) = Some m -> sender m = userId ->
     exists saved,
       call (deleteMessage now messageId userId) c = (Return saved, saved) /\
       getUnreadCount reader saved + (if unread_for reader m then 1 else 0)
       = getUnreadCount reader c) /\
  (forall messageId newContent userId saved c',
     call (editMessage now messageId newContent userId) c
     = (Return saved, c') ->
     getUnreadCount reader saved = getUnreadCount reader c).
Proof.
  split.
  { intros newId senderId text_ ty att. eexists.
    split; [apply addMessage_runs|].
    unfold getUnreadCount.
    cbn [messages set_autoCloseAt set_lastActivity set_lastMessage
           set_messages].
    rewrite filter_app, length_app. cbn [filter isRead sender isDeleted].
    destruct (Nat.eqb senderId reader); reflexivity. }
  split.
  { intros messageId userId m Hid Hs. eexists.
    split; [apply (deleteMessage_saved _ _ _ _ m Hid Hs)|].
    unfold getUnreadCount. fold (unread_for reader).
    cbn [messages set_lastActivity set_messages].
    rewrite (count_update_id (unread_for reader) messageId
               (delete_fields now) (messages c) m Hid).
    replace (unread_for reader (delete_fields now m)) with false;
      [lia|].
    unfold unread_for. cbn. rewrite andb_false_r. reflexivity. }
  intros messageId newContent userId saved c' H.
  destruct (id messageId (messages c)) as [m|] eqn:Hid.
  - apply editMessage_returns in H. destruct H as [-> _].
    unfold getUnreadCount. fold (unread_for reader).
    cbn [messages set_lastActivity set_messages].
    assert (Hc := count_update_id (unread_for reader) messageId
                    (edit_fields now newContent) (messages c) m Hid).
    replace (unread_for reader (edit_fields now newContent m))
      with (unread_for reader m) in Hc; [lia|].
    unfold unread_for, edit_fields. destruct (isEdited m); reflexivity.
  - rewrite (editMessage_not_found _ _ _ _ _ Hid) in H. discriminate.
Qed.

(** X11.  Reading twice.  A second [markMessagesAsRead] without ids marks
    nothing: the messages keep the readAt of the first reading and
    lastActivity is not renewed.  With ids it is otherwise: a listed message
    sent by someone else is stamped again even when it was read already, and
    lastActivity is renewed. *)
Theorem reading_twice (c : Chat) (now1 now2 : Date) (userId : ObjectId) :
  exists first,
    call (markMessagesAsRead now1 userId None) c = (Return first, first) /\
    (exists second,
       call (markMessagesAsRead now2 userId None) first
       = (Return second, second) /\
       messages second = messages first /\
       lastActivity second = lastActivity first) /\
    (forall messageId m,
       id messageId (messages first) = Some m -> sender m <> userId ->
       exists second,
         call (markMessagesAsRead now2 userId (Some [messageId])) first
         = (Return second, second) /\
         id messageId (messages second)
         = Some (set_readAt (Some now2) (set_isRead true m)) /\
         lastActivity second = now2).
Proof.
  destruct (markMessagesAsRead_fields now1 userId None c)
    as (first & Hcall & _ & Hms & _).
  exists first. split; [exact Hcall|].
  assert (Hnone : forall m, In m (messages first) ->
                    unread_by_other userId m = false).
  { intros m Hin. rewrite Hms in Hin. cbn [marked] in Hin.
    apply in_map_iff in Hin. destruct Hin as (m0 & <- & _).
    destruct (unread_by_other userId m0) eqn:E; [|exact E].
    unfold unread_by_other. reflexivity. }
  split.
  { destruct (messages_markMessagesAsRead now2 userId None first)
      as (second & Hcall2 & Hms2 & _ & Hl).
    exists second. split; [exact Hcall2|].
    split.
    - rewrite Hms2. cbn [marked].
      rewrite <- (map_id (messages first)) at 2.
      apply map_ext_in. intros m Hin. rewrite (Hnone m Hin). reflexivity.
    - rewrite Hl. cbn [marks_some].
      replace (existsb (unread_by_other userId) (messages first))
        with false; [reflexivity|].
      symmetry. apply not_true_is_false. intros Hex.
      apply existsb_exists in Hex. destruct Hex as (m & Hin & Hu).
      rewrite (Hnone m Hin) in Hu. discriminate. }
  intros messageId m Hid Hs.
  destruct (messages_markMessagesAsRead now2 userId (Some [messageId]) first)
    as (second & Hcall2 & Hms2 & _ & Hl).
  exists second. split; [exact Hcall2|].
  assert (Hhit : sent_by_other userId (messages first) messageId = true).
  { unfold sent_by_other. rewrite Hid.
    apply Nat.eqb_neq in Hs. rewrite Hs. reflexivity. }
  split.
  - rewrite Hms2. cbn [marked marked_ids]. rewrite Hhit.
    rewrite id_update_id by reflexivity. rewrite Hid. reflexivity.
  - rewrite Hl. cbn [marks_some existsb]. rewrite Hhit. reflexivity.
Qed.

(** ** Closing: the sweep and the lookup of [create_chat] *)

Lemma NoDup_map_injective {A B} (f : A -> B) (l : list A) (a b : A) :
  NoDup (map f l) -> In a l -> In b l -> f a = f b -> a = b.
Proof.
  induction l as [|x l IH]; cbn; [tauto|].
  intros Hnd Ha Hb Hf. inversion Hnd as [|? ? Hnotin Hnd']; subst.
  destruct Ha as [->|Ha], Hb as [->|Hb].
  - reflexivity.
  - exfalso. apply Hnotin. rewrite Hf. apply in_map, Hb.
  - exfalso. apply Hnotin. rewrite <- Hf. apply in_map, Ha.
  - apply IH; assumption.
Qed.

Lemma NoDup_map_filter {A B} (f : A -> B) (P : A -> bool) (l : list A) :
  NoDup (map f l) -> NoDup (map f (filter P l)).
Proof.
  induction l as [|x l IH]; cbn; [auto|].
  intros Hnd. inversion Hnd as [|? ? Hnotin Hnd']; subst.
  destruct (P x); cbn; [|auto].
  constructor; [|auto].
  intros Hin. apply Hnotin. apply in_map_iff in Hin.
  destruct Hin as (y & Hy & Hin). apply filter_In in Hin.
  rewrite <- Hy. apply in_map. tauto.
Qed.

(** Writing the closed form of each chat of a list whose ids are distinct. *)
Lemma fold_write_closed (now : Date) (l : list Chat) :
  NoDup (map _id l) ->
  forall db,
    fold_left
      (fun db chat =>
         match call (closeChat now None) chat with
         | (Return saved, _) => write saved db
         | (Throw _, _) | (Reject _, _) => db
         end)
      l db
    = map
        (fun d =>
           match find (fun c => Nat.eqb (_id c) (_id d)) l with
           | Some c => closed_at now c
           | None => d
           end)
        db.
Proof.
  induction l as [|c l IH]; intros Hnd db.
  - cbn. rewrite map_id. reflexivity.
  - inversion Hnd as [|? ? Hnotin Hnd']; subst.
    cbn [fold_left]. change (call (closeChat now None) c)
      with (Return (closed_at now c), closed_at now c).
    cbv iota beta. rewrite (IH Hnd'). unfold write. rewrite map_map.
    apply map_ext. intros d.
    change (_id (closed_at now c)) with (_id c).
    cbn [find]. rewrite (Nat.eqb_sym (_id c) (_id d)).
    destruct (Nat.eqb (_id d) (_id c)) eqn:E; [|reflexivity].
    change (_id (closed_at now c)) with (_id c).
    destruct (find (fun c0 => Nat.eqb (_id c0) (_id c)) l) as [c'|] eqn:F;
      [|reflexivity].
    exfalso. apply Hnotin. apply find_some in F. destruct F as [Hin Hc].
    apply Nat.eqb_eq in Hc. rewrite <- Hc. apply in_map, Hin.
Qed.

Lemma find_expired_by_id (now : Date) (db : Store) (d : Chat) :
  NoDup (map _id db) -> In d db ->
  find (fun c => Nat.eqb (_id c) (_id d)) (findExpired now db)
  = if expired now d then Some d else None.
Proof.
  intros Hnd Hin. unfold findExpired. fold (expired now).
  destruct (find (fun c => Nat.eqb (_id c) (_id d))
              (filter (expired now) db)) as [c|] eqn:F.
  - apply find_some in F. destruct F as [Hc Hid].
    apply filter_In in Hc. destruct Hc as [Hc He].
    apply Nat.eqb_eq in Hid.
    assert (c = d) by (apply (NoDup_map_injective _id db); assumption).
    subst c. rewrite He. reflexivity.
  - destruct (expired now d) eqn:He; [|reflexivity].
    exfalso.
    assert (Hd : In d (filter (expired now) db)).
    { apply filter_In. auto. }
    apply (find_none _ _ F) in Hd. rewrite Nat.eqb_refl in Hd.
    discriminate.
Qed.

(** X12.  The sweep.  In a collection of distinct ids, when the statements
    on posts complete, [cleanupExpiredContent] closes exactly the active
    chats whose autoCloseAt is past (status closed, isResolved, resolvedAt =
    now, no closer recorded) and leaves every other chat as it was, so that
    [findExpired] then finds nothing.  When the name [Post] is not bound,
    which is the case in [server.js], the function logs the error and no
    chat is closed. *)
Theorem cleanup_closes_the_expired_chats (db : Store) (now : Date)
    (expiredPosts : nat) :
  NoDup (map _id db) ->
  fst (cleanupExpiredContent (Some expiredPosts) now db)
  = map (fun c => if expired now c then closed_at now c else c) db /\
  findExpired now (fst (cleanupExpiredContent (Some expiredPosts) now db))
  = [] /\
  (forall c, In c db -> expired now c = true ->
     findById (_id c) (fst (cleanupExpiredContent (Some expiredPosts) now db))
     = Some (closed_at now c)) /\
  cleanupExpiredContent None now db = (db, [console_error "Cleanup error:"]).
Proof.
  intros Hnd.
  assert (Heq : fst (cleanupExpiredContent (Some expiredPosts) now db)
                = map (fun c => if expired now c then closed_at now c else c)
                    db).
  { unfold cleanupExpiredContent. cbn [fst].
    rewrite fold_write_closed.
    - apply map_ext_in. intros d Hin.
      rewrite (find_expired_by_id now db d Hnd Hin).
      destruct (expired now d); reflexivity.
    - unfold findExpired. apply NoDup_map_filter, Hnd. }
  split; [exact Heq|].
  split.
  { rewrite Heq. unfold findExpired. fold (expired now).
    clear Heq Hnd. induction db as [|c db IH]; [reflexivity|].
    cbn [map filter].
    replace (expired now (if expired now c then closed_at now c else c))
      with false; [exact IH|].
    destruct (expired now c) eqn:E; [reflexivity|]. rewrite E.
    reflexivity. }
  split; [|reflexivity].
  intros c Hin He. rewrite Heq. unfold findById.
  clear Heq. induction db as [|d db IH]; [destruct Hin|].
  inversion Hnd as [|? ? Hnotin Hnd']; subst.
  cbn [map find].
  destruct Hin as [->|Hin].
  - rewrite He. change (_id (closed_at now c)) with (_id c).
    rewrite Nat.eqb_refl. reflexivity.
  - assert (Hne : Nat.eqb (_id d) (_id c) = false).
    { apply Nat.eqb_neq. intros Heq'. apply Hnotin. rewrite Heq'.
      apply in_map, Hin. }
    replace (_id (if expired now d then closed_at now d else d))
      with (_id d) by (destruct (expired now d); reflexivity).
    rewrite Hne. apply IH; assumption.
Qed.

Lemma cleanup_closes_the_expired_chats_witness :
  fst (cleanupExpiredContent (Some 0) (6 + week)%Z
         [sample_chat active [sample_message]])
  = [closed_at (6 + week)%Z (sample_chat active [sample_message])] /\
  findExpired (6 + week)%Z
    (fst (cleanupExpiredContent (Some 0) (6 + week)%Z
            [sample_chat active [sample_message]]))
  = [].
Proof.
  destruct (cleanup_closes_the_expired_chats
              [sample_chat active [sample_message]] (6 + week)%Z 0)
    as (H1 & H2 & _).
  { repeat constructor. cbn. tauto. }
  split; [exact H1|exact H2].
Defined.




(** ** The chat total of the statistics route *)

Lemma length_sort (l : list Chat) :
  List.length (sort_by_lastMessage_timestamp_desc l) = List.length l.
Proof. apply Permutation_length, sort_Permutation. Qed.

(** X14.  The chat total of the statistics route counts, for every status,
    what [findUserChats] lists: it is the sum of the three lists, closed and
    archived conversations included, and it is at least the number of
    conversations of which the user is an active participant. *)
Theorem stats_total_is_all_statuses (me : ObjectId) (db : Store) :
  stats_totalChats me db
  = List.length (findUserChats me active db)
    + List.length (findUserChats me closed db)
    + List.length (findUserChats me archived db) /\
  List.length (filter (isParticipant me) db) <= stats_totalChats me db.
Proof.
  split.
  - unfold findUserChats. rewrite !length_sort.
    unfold stats_totalChats, matches_findUserChats.
    induction db as [|c db IH]; [reflexivity|].
    cbn [filter].
    destruct (existsb (fun p => Nat.eqb (user p) me) (participants c)
              && existsb (fun p => isActive p) (participants c));
      cbn [andb].
    + destruct (status c); cbn [Status_eqb List.length]; rewrite IH; lia.
    + exact IH.
  - unfold stats_totalChats. apply filter_length_le.
    intros c H. unfold isParticipant in H.
    apply existsb_exists in H. destruct H as (p & Hin & Hp).
    apply andb_true_iff in Hp. destruct Hp as [Hu Ha].
    apply andb_true_iff. split; apply existsb_exists; exists p; auto.
Qed.

(** ** The rate limiter *)

Lemma ClientId_eqb_eq (a b : ClientId) : ClientId_eqb a b = true <-> a = b.
Proof.
  destruct a as [x|], b as [y|]; cbn; split; try congruence; try tauto.
  - intros H. apply String.eqb_eq in H. congruence.
  - intros H. injection H as ->. apply String.eqb_refl.
Qed.

Lemma ClientId_eqb_refl (a : ClientId) : ClientId_eqb a a = true.
Proof. apply ClientId_eqb_eq. reflexivity. Qed.

Lemma filter_idempotent {A} (P : A -> bool) (l : list A) :
  filter P (filter P l) = filter P l.
Proof.
  induction l as [|a l IH]; cbn; [reflexivity|].
  destruct (P a) eqn:E; cbn; rewrite ?E, IH; reflexivity.
Qed.

Lemma filter_later_window (windowMs t0 now : Z) (l : list Date) :
  (t0 <= now)%Z ->
  filter (fun t : Z => (now - windowMs <? t)%Z)
    (filter (fun t : Z => (t0 - windowMs <? t)%Z) l)
  = filter (fun t : Z => (now - windowMs <? t)%Z) l.
Proof.
  intros Hle. induction l as [|t l IH]; cbn; [reflexivity|].
  destruct (t0 - windowMs <? t)%Z eqn:E0; cbn.
  - rewrite IH. reflexivity.
  - rewrite IH.
    replace (now - windowMs <? t)%Z with false; [reflexivity|].
    symmetry. apply Z.ltb_ge. apply Z.ltb_ge in E0. lia.
Qed.

Lemma Requests_set_same (clientId : ClientId) (times : list Date)
    (requests : Requests) :
  Requests_set clientId times requests clientId = Some times.
Proof. unfold Requests_set. rewrite ClientId_eqb_refl. reflexivity. Qed.

Lemma ClientId_eqb_sym_aux (a b : ClientId) :
  ClientId_eqb a b = ClientId_eqb b a.
Proof.
  destruct a as [x|], b as [y|]; cbn; try reflexivity.
  apply String.eqb_sym.
Qed.

(** One request: whether it passes, and the times the map holds
    afterwards. *)
Lemma rateLimit_step (maxRequests windowMs : Z) (ip remoteAddress : option string)
    (now : Date) (requests : Requests) :
  let clientId := clientId_of ip remoteAddress in
  let kept :=
    filter (fun t : Z => (now - windowMs <? t)%Z) (stored_times requests clientId) in
  let full := (maxRequests <=? Z.of_nat (List.length kept))%Z in
  passed (fst (rateLimit maxRequests windowMs ip remoteAddress now requests))
  = negb full /\
  forall k,
    stored_times
      (snd (rateLimit maxRequests windowMs ip remoteAddress now requests)) k
    = if ClientId_eqb k clientId
      then (if full then kept else kept ++ [now])
      else stored_times requests k.
Proof.
  cbv zeta. unfold rateLimit, stored_times. cbv zeta beta.
  destruct (requests (clientId_of ip remoteAddress)) as [times|] eqn:E.
  - rewrite !Requests_set_same. cbv beta.
    set (kept := filter (fun t : Z => (now - windowMs <? t)%Z) times).
    change (filter (fun time : Z => (now - windowMs <? time)%Z) times)
      with kept.
    change (@List.length Z kept) with (@List.length Date kept).
    destruct (maxRequests <=? Z.of_nat (@List.length Date kept))%Z;
      cbn [fst snd passed negb]; (split; [reflexivity|]); intros k;
      unfold Requests_set;
      destruct (ClientId_eqb k (clientId_of ip remoteAddress));
      reflexivity.
  - rewrite E. cbn [filter List.length].
    destruct (maxRequests <=? Z.of_nat 0)%Z;
      cbn [fst snd passed negb]; (split; [reflexivity|]); intros k.
    + destruct (ClientId_eqb k (clientId_of ip remoteAddress)) eqn:Ek;
        [|reflexivity].
      apply ClientId_eqb_eq in Ek. subst k. rewrite E. reflexivity.
    + unfold Requests_set.
      destruct (ClientId_eqb k (clientId_of ip remoteAddress));
        reflexivity.
Qed.

(** What the map holds of a client agrees, inside the window that ends at
    [t], with the times of the requests of that client that passed. *)
Definition agrees (windowMs t : Z) (requests : Requests)
    (served : list (Request * bool)) : Prop :=
  forall k,
    filter (fun x : Z => (t - windowMs <? x)%Z) (stored_times requests k)
    = filter (fun x : Z => (t - windowMs <? x)%Z) (passed_times k served).

(** No window holds more than [maxRequests] passed requests of a client. *)
Definition bounded (maxRequests windowMs : Z)
    (served : list (Request * bool)) : Prop :=
  forall k s,
    (Z.of_nat (List.length (in_window windowMs s (passed_times k served)))
     <= Z.max 0 maxRequests)%Z.

Lemma passed_times_snoc (k : ClientId) (served : list (Request * bool))
    (r : Request) (ok : bool) :
  passed_times k (served ++ [(r, ok)])
  = passed_times k served
    ++ (if ok && ClientId_eqb (req_client r) k then [req_time r] else []).
Proof.
  unfold passed_times. rewrite filter_app, map_app. cbn [filter fst snd].
  destruct (ok && ClientId_eqb (req_client r) k); reflexivity.
Qed.

Lemma agrees_later (windowMs t0 now : Z) (requests : Requests)
    (served : list (Request * bool)) :
  (t0 <= now)%Z -> agrees windowMs t0 requests served ->
  agrees windowMs now requests served.
Proof.
  intros Hle H k.
  rewrite <- (filter_later_window windowMs t0 now (stored_times requests k))
    by exact Hle.
  rewrite (H k). apply filter_later_window, Hle.
Qed.

Lemma serve_one (maxRequests windowMs : Z) (r : Request)
    (requests : Requests) (served : list (Request * bool)) (t0 : Z) :
  (t0 <= req_time r)%Z ->
  agrees windowMs t0 requests served ->
  bounded maxRequests windowMs served ->
  let o :=
    rateLimit maxRequests windowMs (req_ip r) (req_remoteAddress r)
      (req_time r) requests in
  agrees windowMs (req_time r) (snd o) (served ++ [(r, passed (fst o))]) /\
  bounded maxRequests windowMs (served ++ [(r, passed (fst o))]) /\
  passed (fst o)
  = (Z.of_nat
       (List.length
          (filter (fun t : Z => (req_time r - windowMs <? t)%Z)
             (passed_times (req_client r) served)))
     <? maxRequests)%Z.
Proof.
  intros Hle Hag Hb. cbv zeta.
  destruct (rateLimit_step maxRequests windowMs (req_ip r)
              (req_remoteAddress r) (req_time r) requests)
    as [Hpass Hstored].
  cbv zeta in Hpass, Hstored. fold (req_client r) in Hpass, Hstored.
  assert (Hnow := agrees_later windowMs t0 (req_time r) requests served
                    Hle Hag).
  rewrite (Hnow (req_client r)) in Hpass, Hstored.
  set (kept := filter (fun t : Z => (req_time r - windowMs <? t)%Z)
                 (passed_times (req_client r) served)) in *.
  rewrite Hpass.
  split; [|split].
  - intros k. rewrite Hstored, passed_times_snoc.
    rewrite (ClientId_eqb_sym_aux k (req_client r)).
    destruct (ClientId_eqb (req_client r) k) eqn:Ek.
    + apply ClientId_eqb_eq in Ek. subst k.
      destruct (maxRequests <=? Z.of_nat (List.length kept))%Z;
        cbn [negb andb].
      * rewrite app_nil_r. apply filter_idempotent.
      * rewrite !filter_app. f_equal. apply filter_idempotent.
    + rewrite andb_false_r, app_nil_r. apply Hnow.
  - intros k s. rewrite passed_times_snoc. unfold in_window.
    rewrite filter_app, length_app.
    destruct (negb (maxRequests <=? Z.of_nat (List.length kept))%Z
              && ClientId_eqb (req_client r) k) eqn:Eok.
    + apply andb_true_iff in Eok. destruct Eok as [Hfull Ek].
      apply ClientId_eqb_eq in Ek. subst k.
      apply negb_true_iff, Z.leb_gt in Hfull.
      cbn [filter].
      destruct ((s - windowMs <? req_time r)%Z && (req_time r <=? s)%Z)
        eqn:Ew.
      * apply andb_true_iff in Ew. destruct Ew as [_ Hs].
        apply Z.leb_le in Hs.
        assert (Hin : List.length
                        (filter
                           (fun t => (s - windowMs <? t)%Z && (t <=? s)%Z)
                           (passed_times (req_client r) served))
                      <= List.length kept).
        { unfold kept. apply filter_length_le. intros t Ht.
          apply andb_true_iff in Ht. destruct Ht as [Ht _].
          apply Z.ltb_lt in Ht. apply Z.ltb_lt. lia. }
        cbn [List.length]. unfold Date in *. lia.
      * cbn [List.length]. rewrite Nat.add_0_r. apply Hb.
    + cbn [filter List.length]. rewrite Nat.add_0_r. apply Hb.
  - destruct (maxRequests <=? Z.of_nat (List.length kept))%Z eqn:E;
      cbn [negb]; symmetry.
    + apply Z.ltb_ge. apply Z.leb_le in E. exact E.
    + apply Z.ltb_lt. apply Z.leb_gt in E. exact E.
Qed.

Lemma serve_cons (maxRequests windowMs : Z) (r : Request)
    (reqs : list Request) (requests : Requests) :
  serve maxRequests windowMs (r :: reqs) requests
  = ((r, passed
           (fst (rateLimit maxRequests windowMs (req_ip r)
                   (req_remoteAddress r) (req_time r) requests)))
     :: fst (serve maxRequests windowMs reqs
               (snd (rateLimit maxRequests windowMs (req_ip r)
                       (req_remoteAddress r) (req_time r) requests))),
     snd (serve maxRequests windowMs reqs
            (snd (rateLimit maxRequests windowMs (req_ip r)
                    (req_remoteAddress r) (req_time r) requests)))).
Proof.
  cbn [serve].
  destruct (rateLimit maxRequests windowMs (req_ip r) (req_remoteAddress r)
              (req_time r) requests) as [o requests'].
  cbn [fst snd].
  destruct (serve maxRequests windowMs reqs requests') as [served requests''].
  destruct o; reflexivity.
Qed.

Lemma last_cons (t t0 : Z) (ts : list Z) : last (t :: ts) t0 = last ts t.
Proof.
  revert t t0. induction ts as [|x ts IH]; intros t t0; [reflexivity|].
  change (last (t :: x :: ts) t0) with (last (x :: ts) t0).
  rewrite (IH x t0), (IH x t). reflexivity.
Qed.

Lemma serve_invariant (maxRequests windowMs : Z) (reqs : list Request) :
  forall (requests : Requests) (served : list (Request * bool)) (t0 : Z),
    agrees windowMs t0 requests served ->
    bounded maxRequests windowMs served ->
    clock_from t0 (map req_time reqs) ->
    agrees windowMs (last (map req_time reqs) t0)
      (snd (serve maxRequests windowMs reqs requests))
      (served ++ fst (serve maxRequests windowMs reqs requests)) /\
    bounded maxRequests windowMs
      (served ++ fst (serve maxRequests windowMs reqs requests)).
Proof.
  induction reqs as [|r reqs IH]; intros requests served t0 Hag Hb Hclock.
  - cbn. rewrite app_nil_r. auto.
  - cbn [map clock_from] in Hclock. destruct Hclock as [Hle Hclock].
    destruct (serve_one maxRequests windowMs r requests served t0 Hle Hag Hb)
      as (Hag1 & Hb1 & _).
    cbv zeta in Hag1, Hb1.
    rewrite serve_cons. cbn [fst snd].
    specialize (IH _ _ _ Hag1 Hb1 Hclock).
    rewrite <- app_assoc in IH. cbn [app] in IH.
    cbn [map]. rewrite last_cons. exact IH.
Qed.

Lemma clock_from_snoc (t0 t : Z) (times : list Z) :
  clock_from t0 (times ++ [t]) ->
  clock_from t0 times /\ (last times t0 <= t)%Z.
Proof.
  revert t0. induction times as [|x times IH]; intros t0;
    cbn [app clock_from].
  - cbn [last]. tauto.
  - intros [Hle H]. destruct (IH x H) as [Hc Hl].
    split; [auto|]. rewrite last_cons. exact Hl.
Qed.

(** X15.  The limiter keeps its promise.  Requests arrive with a clock that
    does not go back and are served from an empty map; however the clients
    and the times are interleaved, no window of [windowMs] milliseconds ever
    contains more than [maxRequests] requests of one client that passed (none
    at all when [maxRequests] is zero or negative). *)
Theorem rateLimit_bounds_every_window (maxRequests windowMs : Z)
    (reqs : list Request) (t0 : Z) (clientId : ClientId) (s : Z) :
  clock_from t0 (map req_time reqs) ->
  (Z.of_nat
     (List.length
        (in_window windowMs s
           (passed_times clientId
              (fst (serve maxRequests windowMs reqs Requests_new)))))
   <= Z.max 0 maxRequests)%Z.
Proof.
  intros Hclock.
  destruct (serve_invariant maxRequests windowMs reqs Requests_new [] t0)
    as [_ Hb].
  - intros k. reflexivity.
  - intros k s'. cbn. lia.
  - exact Hclock.
  - apply Hb.
Qed.

Lemma rateLimit_bounds_every_window_witness :
  (Z.of_nat
     (List.length
        (in_window 10 7
           (passed_times (Some "10.0.0.1")
              (fst (serve 1 10
                      [{| req_ip := Some "10.0.0.1";
                          req_remoteAddress := None; req_time := 0%Z |};
                       {| req_ip := Some "10.0.0.1";
                          req_remoteAddress := None; req_time := 5%Z |}]
                      Requests_new)))))
   <= Z.max 0 1)%Z.
Proof.
  apply (rateLimit_bounds_every_window 1 10 _ 0%Z).
  cbn. lia.
Defined.

(** X16.  Who passes.  After any such run, a further request passes exactly
    when fewer than [maxRequests] requests of its client have passed within
    the last [windowMs] milliseconds (strictly after now - windowMs):
    refused requests do not count, and neither do the other clients. *)
Theorem rateLimit_admits_below_the_limit (maxRequests windowMs : Z)
    (reqs : list Request) (r : Request) (t0 : Z) :
  clock_from t0 (map req_time (reqs ++ [r])) ->
  passed
    (fst (rateLimit maxRequests windowMs (req_ip r) (req_remoteAddress r)
            (req_time r)
            (snd (serve maxRequests windowMs reqs Requests_new))))
  = (Z.of_nat
       (List.length
          (filter (fun t : Z => (req_time r - windowMs <? t)%Z)
             (passed_times (req_client r)
                (fst (serve maxRequests windowMs reqs Requests_new)))))
     <? maxRequests)%Z.
Proof.
  intros Hclock. rewrite map_app in Hclock. cbn [map] in Hclock.
  apply clock_from_snoc in Hclock. destruct Hclock as [Hclock Hlast].
  destruct (serve_invariant maxRequests windowMs reqs Requests_new [] t0)
    as [Hag Hb].
  - intros k. reflexivity.
  - intros k s'. cbn. lia.
  - exact Hclock.
  - cbn [app] in Hag, Hb.
    apply (serve_one maxRequests windowMs r _ _ _ Hlast Hag Hb).
Qed.

Lemma rateLimit_admits_below_the_limit_witness :
  passed
    (fst (rateLimit 1 10 (Some "10.0.0.1") None 10%Z
            (snd (serve 1 10
                    [{| req_ip := Some "10.0.0.1"; req_remoteAddress := None;
                        req_time := 0%Z |};
                     {| req_ip := Some "10.0.0.1"; req_remoteAddress := None;
                        req_time := 5%Z |}]
                    Requests_new))))
  = (Z.of_nat
       (List.length
          (filter (fun t : Z => (10 - 10 <? t)%Z)
             (passed_times (Some "10.0.0.1")
                (fst (serve 1 10
                        [{| req_ip := Some "10.0.0.1";
                            req_remoteAddress := None; req_time := 0%Z |};
                         {| req_ip := Some "10.0.0.1";
                            req_remoteAddress := None; req_time := 5%Z |}]
                        Requests_new)))))
     <? 1)%Z.
Proof.
  apply (rateLimit_admits_below_the_limit 1 10
           [{| req_ip := Some "10.0.0.1"; req_remoteAddress := None;
               req_time := 0%Z |};
            {| req_ip := Some "10.0.0.1"; req_remoteAddress := None;
               req_time := 5%Z |}]
           {| req_ip := Some "10.0.0.1"; req_remoteAddress := None;
              req_time := 10%Z |} 0%Z).
  cbn. lia.
Defined.

(** ** From sending to editing *)



